(** * Master-side replication of Tendis: tendisplus/replication/mpov.cpp

    A shallow embedding of [ReplManager::masterSendBinlog],
    [ReplManager::masterPushRoutine], [ReplManager::registerIncrSync] and
    [ReplManager::supplyFullSyncRoutine], with the properties of the
    replication specification stated over it.

    Integers of the source are [Z] with the wrap-around of their C++ type
    written out ([uint32_t] modulo 2^32, [uint64_t] and [size_t] modulo 2^64).
    Network, store and file system are the environment: every blocking call
    is answered by an oracle that sees the history of the connection, and
    appends one event to that history. *)

From Stdlib Require Import ZArith String Ascii List Bool Lia.
From stdpp Require Import base option list functions sorting gmap strings pretty.

Local Open Scope Z_scope.

(** ** Status and Expected *)

Inductive ErrorCodes :=
| ERR_OK
| ERR_NETWORK
| ERR_TIMEOUT
| ERR_INTERNAL
| ERR_PARSEOPT
| ERR_EXHAUST.

Definition ErrorCodes_eqb (a b : ErrorCodes) : bool :=
  match a, b with
  | ERR_OK, ERR_OK | ERR_NETWORK, ERR_NETWORK | ERR_TIMEOUT, ERR_TIMEOUT
  | ERR_INTERNAL, ERR_INTERNAL | ERR_PARSEOPT, ERR_PARSEOPT
  | ERR_EXHAUST, ERR_EXHAUST => true
  | _, _ => false
  end.

Record Status := mkStatus { code : ErrorCodes; toString : string }.

Definition Status_ok (s : Status) : bool := ErrorCodes_eqb (code s) ERR_OK.

Definition OK : Status := mkStatus ERR_OK "".

(** [Expected<T>]: a value, or the status that explains its absence. *)
Inductive Expected (T : Type) :=
| Value (v : T)
| Failed (s : Status).
Arguments Value {T} v.
Arguments Failed {T} s.

(** ** Machine integers *)

Definition UINT32_MOD : Z := 2 ^ 32.
Definition UINT64_MOD : Z := 2 ^ 64.
Definition UINT64_MAX : Z := 2 ^ 64 - 1.

Definition u32 (z : Z) : Z := z mod UINT32_MOD.
Definition u64 (z : Z) : Z := z mod UINT64_MOD.

Definition CRLF : string := String "013" (String "010" "").

Definition strlen (s : string) : Z := Z.of_nat (String.length s).

(** [s1 != s2] on [std::string]. *)
Definition string_neb (a b : string) : bool := negb (String.eqb a b).

(** ** Control *)

(** A routine runs to its end, or dies on a failed [INVARIANT]. *)
Inductive Outcome (A : Type) :=
| Done (a : A)
| Aborted.
Arguments Done {A} a.
Arguments Aborted {A}.

(** What a call of the C++ library does: it returns, or throws. *)
Inductive Thrown (A : Type) :=
| Returns (a : A)
| Throws (what : string).
Arguments Returns {A} a.
Arguments Throws {A} what.

(** How a piece of the routine hands over: it falls through to what
    follows, or it has executed [return]. *)
Inductive Flow :=
| Continue
| Returned.

(** Byte strings that the code only carries around (operation payloads,
    encoded keys and values, file contents) stay abstract: the code asks for
    nothing but their [size()]. *)
Class ByteString (Payload : Type) := payloadSize : Payload -> Z.

Section Model.

Context {Payload : Type} `{!ByteString Payload}.

(** ** Binlog rows *)

Record ReplLogKey := mkReplLogKey { getTxnId : Z }.
Record ReplLogValue := mkReplLogValue { getOpValue : Payload }.
Record ReplLog := mkReplLog {
  getReplLogKey : ReplLogKey;
  getReplLogValue : ReplLogValue }.

(** [ReplLog::encode()], of storage/record.cpp, is outside this unit. *)
Class ReplLogCodec := encode : ReplLog -> Payload * Payload.
Context `{!ReplLogCodec}.

Definition txnIdOf (r : ReplLog) : Z := getTxnId (getReplLogKey r).
Definition opSizeOf (r : ReplLog) : Z :=
  payloadSize (getOpValue (getReplLogValue r)).

(** ** Binlog cursor

    A cursor is the sequence of answers its [next()] still has to give: rows,
    or a failure of the storage engine.  [next()] on the empty sequence
    answers [ERR_EXHAUST]. *)
Definition BinlogCursor := list (Expected ReplLog).

Definition exhausted : Status := mkStatus ERR_EXHAUST "".

Definition next (c : BinlogCursor) : Expected ReplLog * BinlogCursor :=
  match c with
  | [] => (Failed exhausted, [])
  | e :: c' => (e, c')
  end.

Record Transaction := mkTransaction {
  createBinlogCursor : Z -> BinlogCursor }.

(** [BackupInfo::getFileList()]: name and size of every file, in the order
    in which the list is walked. *)
Record BackupInfo := mkBackupInfo {
  getFileList : list (string * Z) }.

(** What the routines ask of a [KVStore]. *)
Record Store := mkStore {
  createTransaction : Expected Transaction;
  Store_isRunning : bool;
  backup : Expected BackupInfo;
  releaseBackup : Status;
  backupDir : string }.

(** ** The batching loop of masterSendBinlog (mpov.cpp:117-146) *)

Definition suggestBatch : Z := 64.
Definition suggestBytes : Z := 16 * 1024 * 1024.

Record BatchState := mkBatchState {
  binlogs : list ReplLog;
  cnt : Z;
  nowId : Z;
  estimateSize : Z }.

Definition batchInit : BatchState := mkBatchState [] 0 0 0.

Inductive LoopExit :=
| Break (st : BatchState) (rest : BinlogCursor)
| Return (s : Status).

(** Whether the row starts a transaction, as line 129 decides it. *)
Definition startsTxn (st : BatchState) (r : ReplLog) : bool :=
  (nowId st =? 0) || negb (nowId st =? txnIdOf r).

Definition overThreshold (cnt' estimate' : Z) : bool :=
  (cnt' >=? suggestBatch) || (estimate' >=? suggestBytes).

Fixpoint batchLoop (cursor : BinlogCursor) (st : BatchState) : LoopExit :=
  match cursor with
  | [] => Break st []
  | Value explog :: cursor' =>
      let cnt' := u32 (cnt st + 1) in
      let estimate' := u64 (estimateSize st + opSizeOf explog) in
      if startsTxn st explog then
        if overThreshold cnt' estimate' then
          Break (mkBatchState (binlogs st) cnt' (txnIdOf explog) estimate')
                cursor'
        else
          batchLoop cursor'
            (mkBatchState (binlogs st ++ [explog]) cnt' (txnIdOf explog)
                          estimate')
      else
        batchLoop cursor'
          (mkBatchState (binlogs st ++ [explog]) cnt' (nowId st) estimate')
  | Failed s :: cursor' =>
      if ErrorCodes_eqb (code s) ERR_EXHAUST then Break st cursor'
      else Return s
  end.

(** ** Framing (mpov.cpp:148-156)

    What a [std::stringstream] holds: text, and payload bytes. *)
Inductive Chunk :=
| Text (s : string)
| Raw (p : Payload).

Definition Wire := list Chunk.

Definition chunkSize (c : Chunk) : Z :=
  match c with
  | Text s => strlen s
  | Raw p => payloadSize p
  end.

Definition wireSize (w : Wire) : Z :=
  fold_right (fun c n => chunkSize c + n) 0 w.

(** Modelled from the spec: [Command::fmtMultiBulkLen] of
    commands/command.cpp is missing; section 4.2 gives the frame as
    [*{2+2N}] followed by CRLF. *)
Definition fmtMultiBulkLen (ss : Wire) (n : Z) : Wire :=
  ss ++ [Text ("*" +:+ pretty n +:+ CRLF)].

(** Modelled from the spec: [Command::fmtBulk] of commands/command.cpp is
    missing; section 4.2 gives a bulk as [${len}], CRLF, the bytes, CRLF. *)
Definition fmtBulk (ss : Wire) (c : Chunk) : Wire :=
  ss ++ [Text ("$" +:+ pretty (chunkSize c) +:+ CRLF); c; Text CRLF].

Definition frameBinlogs (dstStoreId : Z) (logs : list ReplLog) : Wire :=
  let ss := fmtMultiBulkLen [] (Z.of_nat (length logs) * 2 + 2) in
  let ss := fmtBulk ss (Text "applybinlogs") in
  let ss := fmtBulk ss (Text (pretty dstStoreId)) in
  fold_left
    (fun ss v =>
       let kv := encode v in
       let ss := fmtBulk ss (Raw (fst kv)) in
       fmtBulk ss (Raw (snd kv)))
    logs ss.

(** The timeout chosen at mpov.cpp:158-163. *)
Definition writeTimeoutSecs (size : Z) : Z :=
  if size >? 1024 * 1024 then 2
  else if size >? 1024 * 1024 * 10 then 4
  else 1.

(** ** The blocking client

    The peer is an oracle: it answers a write with a status and a read with
    a line or a failure, and sees everything that went over the connection
    before (the write it answers included). *)
Inductive NetEvent :=
| WriteLine (line : string) (timeout : Z)
| WriteData (data : Wire) (timeout : Z)
| ReadLine (timeout : Z) (got : Expected string).

Record Peer := mkPeer {
  answerWrite : list NetEvent -> Status;
  answerRead : list NetEvent -> Z -> Expected string }.

Record BlockingTcpClient := mkClient {
  getRemoteRepr : string;
  peer : Peer;
  history : list NetEvent }.

Definition writeLine (c : BlockingTcpClient) (line : string) (secs : Z)
  : Status * BlockingTcpClient :=
  let h := history c ++ [WriteLine line secs] in
  (answerWrite (peer c) h, mkClient (getRemoteRepr c) (peer c) h).

Definition writeData (c : BlockingTcpClient) (data : Wire) (secs : Z)
  : Status * BlockingTcpClient :=
  let h := history c ++ [WriteData data secs] in
  (answerWrite (peer c) h, mkClient (getRemoteRepr c) (peer c) h).

Definition readLine (c : BlockingTcpClient) (secs : Z)
  : Expected string * BlockingTcpClient :=
  let r := answerRead (peer c) (history c) secs in
  (r, mkClient (getRemoteRepr c) (peer c) (history c ++ [ReadLine secs r])).

(** ** masterSendBinlog (mpov.cpp:101-182) *)

(** [_svr->getSegmentMgr()->getInstanceById]: [None] is the null pointer. *)
Definition SegmentMgr := Z -> option Store.

Definition badReturn : Status := mkStatus ERR_NETWORK "bad return string".

(** Lines 105-146: the store, its transaction and cursor, and the loop. *)
Definition gatherBinlogs (svr : SegmentMgr) (storeId binlogPos : Z)
  : Outcome (Expected (list ReplLog)) :=
  match svr storeId with
  | None => Aborted
  | Some store =>
      match createTransaction store with
      | Failed s => Done (Failed s)
      | Value txn =>
          let cursor := createBinlogCursor txn (u64 (binlogPos + 1)) in
          match batchLoop cursor batchInit with
          | Return s => Done (Failed s)
          | Break st _ => Done (Value (binlogs st))
          end
      end
  end.

(** Lines 148-181: frame, write, await the answer, report the position. *)
Definition sendBinlogs (client : BlockingTcpClient) (dstStoreId binlogPos : Z)
    (logs : list ReplLog) : Expected Z * BlockingTcpClient :=
  let ss := frameBinlogs dstStoreId logs in
  let secs := writeTimeoutSecs (wireSize ss) in
  let (s, client) := writeData client ss secs in
  if negb (Status_ok s) then (Failed s, client)
  else
    let (exptOK, client) := readLine client secs in
    match exptOK with
    | Failed s' => (Failed s', client)
    | Value line =>
        if string_neb line "+OK" then (Failed badReturn, client)
        else
          match last logs with
          | None => (Value binlogPos, client)
          | Some v => (Value (txnIdOf v), client)
          end
    end.

Definition masterSendBinlog (svr : SegmentMgr) (client : BlockingTcpClient)
    (storeId dstStoreId binlogPos : Z)
  : Outcome (Expected Z * BlockingTcpClient) :=
  match gatherBinlogs svr storeId binlogPos with
  | Aborted => Aborted
  | Done (Failed s) => Done (Failed s, client)
  | Done (Value logs) => Done (sendBinlogs client dstStoreId binlogPos logs)
  end.

(** Modelled from the spec: the storage engine ([Store::createTransaction],
    [Transaction::createBinlogCursor], [BinlogCursor::next]) is missing.  By
    sections 3 and 6 a store keeps its binlog rows in log order and a cursor
    created at [fromId] yields, in that order, the rows whose txnId is at
    least [fromId], then reports exhaustion. *)
Definition cursorFrom (log : list ReplLog) (fromId : Z) : BinlogCursor :=
  map Value (List.filter (fun r => fromId <=? txnIdOf r) log).

(** Modelled from the spec: a running store over the given binlog, whose
    transactions always open, and with nothing to back up. *)
Definition storeOfLog (log : list ReplLog) : Store :=
  mkStore (Value (mkTransaction (cursorFrom log)))
          true (Value (mkBackupInfo [])) OK "".

(** ** The manager's tables

    [MPovStatus] is the master's view of one replica.  Time points of
    [SCLOCK] are nanoseconds. *)
Record MPovStatus := mkMPovStatus {
  isRunning : bool;
  dstStoreId : Z;
  binlogPos : Z;
  nextSchedTime : Z;
  client : BlockingTcpClient;
  clientId : Z }.

Definition seconds (n : Z) : Z := n * 1000000000.

(** [_pushStatus] and [_firstBinlogId] are indexed by store id; the code
    indexes them with ids of existing stores only. *)
Record ReplManager := mkReplManager {
  pushStatus : Z -> gmap Z MPovStatus;
  firstBinlogId : Z -> Z;
  clientIdGen : Z }.

Definition setPushStatus (mgr : ReplManager) (storeId : Z)
    (tbl : gmap Z MPovStatus) : ReplManager :=
  mkReplManager (<[storeId := tbl]> (pushStatus mgr))
                (firstBinlogId mgr) (clientIdGen mgr).

(** ** masterPushRoutine (mpov.cpp:52-99) *)

(** The scope guard of lines 54-65, run with the [nextSched] of the exit. *)
Definition pushGuard (mgr : ReplManager) (storeId cid nextSched : Z)
  : Outcome ReplManager :=
  match pushStatus mgr storeId !! cid with
  | None => Done mgr
  | Some st =>
      if isRunning st then
        Done (setPushStatus mgr storeId
                (<[cid := mkMPovStatus false (dstStoreId st) (binlogPos st)
                            nextSched (client st) (clientId st)]>
                   (pushStatus mgr storeId)))
      else Aborted
  end.

(** [now0] is the clock at entry, [now1] the clock once the slave has
    answered.  The client object is shared with the entry, so what the
    exchange did to it shows in the entry. *)
Definition masterPushRoutine (svr : SegmentMgr) (now0 now1 : Z)
    (mgr : ReplManager) (storeId cid : Z) : Outcome ReplManager :=
  match pushStatus mgr storeId !! cid with
  | None => pushGuard mgr storeId cid (now0 + seconds 1)
  | Some st =>
      match masterSendBinlog svr (client st) storeId (dstStoreId st)
                             (binlogPos st) with
      | Aborted => Aborted
      | Done (Failed _, _) =>
          pushGuard
            (setPushStatus mgr storeId (delete cid (pushStatus mgr storeId)))
            storeId cid now0
      | Done (Value newPos, client') =>
          let st' := mkMPovStatus (isRunning st) (dstStoreId st) newPos
                       (nextSchedTime st) client' (clientId st) in
          let mgr' := setPushStatus mgr storeId
                        (<[cid := st']> (pushStatus mgr storeId)) in
          pushGuard mgr' storeId cid
            (if newPos >? binlogPos st then now1 else now1 + seconds 1)
      end
  end.

(** ** registerIncrSync (mpov.cpp:195-273) *)

(** [std::stoul] and [KVStore::INSTANCE_NUM] come from outside this unit. *)
Variable stoul : string -> Thrown Z.
Variable INSTANCE_NUM : Z.

(** The two critical sections are separated by the handshake, during which
    other threads run: [mgr0] is the manager when the first one reads
    [_firstBinlogId] (lines 223-226), [mgr1] the manager when the second one
    runs (lines 250-270).  The result is the manager after it, and the
    client as the routine leaves it (owned by the new entry, or dropped). *)
Definition registerIncrSync (now : Z) (mgr0 mgr1 : ReplManager)
    (client : BlockingTcpClient) (storeIdArg dstStoreIdArg binlogPosArg : string)
  : ReplManager * BlockingTcpClient :=
  let parsed :=
    match stoul storeIdArg with
    | Throws w => Throws w
    | Returns a =>
        match stoul dstStoreIdArg with
        | Throws w => Throws w
        | Returns b =>
            match stoul binlogPosArg with
            | Throws w => Throws w
            | Returns c => Returns (u64 a, u64 b, u64 c)
            end
        end
    end in
  match parsed with
  | Throws w =>
      (mgr1, snd (writeLine client ("-ERR parse opts failed:" +:+ w) 1))
  | Returns (storeId, dstStoreId, binlogPos) =>
      if (storeId >=? INSTANCE_NUM) || (dstStoreId >=? INSTANCE_NUM) then
        (mgr1, snd (writeLine client "-ERR invalid storeId" 1))
      else
        let firstPos := firstBinlogId mgr0 storeId in
        if firstPos >? binlogPos then
          (mgr1, snd (writeLine client "-ERR invalid binlogPos" 1))
        else
          let client := snd (writeLine client "+OK" 1) in
          let (exptPong, client) := readLine client 1 in
          match exptPong with
          | Failed _ => (mgr1, client)
          | Value line =>
              if string_neb line "+PONG" then (mgr1, client)
              else if firstBinlogId mgr1 storeId >? binlogPos then
                (mgr1, client)
              else
                let cid := clientIdGen mgr1 in
                let st := mkMPovStatus false (u32 dstStoreId) binlogPos now
                            client cid in
                (mkReplManager
                   (<[storeId := <[cid := st]> (pushStatus mgr1 storeId)]>
                      (pushStatus mgr1))
                   (firstBinlogId mgr1)
                   (u64 (cid + 1)),
                 client)
          end
  end.

(** ** supplyFullSyncRoutine (mpov.cpp:275-357)

    The routine talks to the store, the file system and the slave; what it
    does, in order, is its trace. *)
Inductive Action :=
| ActBackup
| ActReleaseBackup
| ActNet (e : NetEvent)
| ActOpen (fname : string)
| ActRead (fname : string) (offset count : Z).

(** The file system as an oracle: whether a file opens, and what a read of
    [count] bytes at [offset] gives ([None]: the stream went bad). *)
Record FileSys := mkFileSys {
  is_open : string -> bool;
  read : string -> Z -> Z -> option Payload }.

Record SyncState := mkSyncState {
  syncClient : BlockingTcpClient;
  syncTrace : list Action }.

Definition act (w : SyncState) (a : Action) : SyncState :=
  mkSyncState (syncClient w) (syncTrace w ++ [a]).

Definition syncWriteLine (w : SyncState) (line : string) (secs : Z)
  : Status * SyncState :=
  let (s, c) := writeLine (syncClient w) line secs in
  (s, mkSyncState c (syncTrace w ++ [ActNet (WriteLine line secs)])).

Definition syncWriteData (w : SyncState) (data : Wire) (secs : Z)
  : Status * SyncState :=
  let (s, c) := writeData (syncClient w) data secs in
  (s, mkSyncState c (syncTrace w ++ [ActNet (WriteData data secs)])).

Definition syncReadLine (w : SyncState) (secs : Z)
  : Expected string * SyncState :=
  let (r, c) := readLine (syncClient w) secs in
  (r, mkSyncState c (syncTrace w ++ [ActNet (ReadLine secs r)])).

Definition DQUOTE : string := String "034" "".

(** The manifest that the rapidjson writer produces at lines 300-307
    (names that need no escaping). *)
Definition manifestEntry (kv : string * Z) : string :=
  DQUOTE +:+ fst kv +:+ DQUOTE +:+ ":" +:+ pretty (snd kv).

Fixpoint joinComma (l : list string) : string :=
  match l with
  | [] => ""
  | [x] => x
  | x :: l' => x +:+ "," +:+ joinComma l'
  end.

Definition manifestJson (files : list (string * Z)) : string :=
  "{" +:+ joinComma (map manifestEntry files) +:+ "}".

(** [readBuf.capacity()] after [reserve] of 20 MB. *)
Definition readBufCapacity : Z := 20 * 1024 * 1024.

(** The [while (remain)] loop of lines 331-346; [None] when the fuel does
    not reach the end of the loop. *)
Fixpoint streamFile (fuel : nat) (fsys : FileSys) (fname : string)
    (offset remain : Z) (w : SyncState) : option (Flow * SyncState) :=
  if remain =? 0 then Some (Continue, w)
  else
    match fuel with
    | O => None
    | S fuel' =>
        let batchSize := Z.min remain readBufCapacity in
        let remain' := u64 (remain - batchSize) in
        let w := act w (ActRead fname offset batchSize) in
        match read fsys fname offset batchSize with
        | None => Some (Returned, w)
        | Some readBuf =>
            let (s, w) := syncWriteData w [Raw readBuf] 1 in
            if negb (Status_ok s) then Some (Returned, w)
            else streamFile fuel' fsys fname (offset + batchSize) remain' w
        end
    end.

Definition streamFuel (size : Z) : nat := S (Z.to_nat (size / readBufCapacity)).

(** The [for] loop of lines 317-347. *)
Fixpoint streamFiles (fsys : FileSys) (dir : string)
    (files : list (string * Z)) (w : SyncState) : option (Flow * SyncState) :=
  match files with
  | [] => Some (Continue, w)
  | fileInfo :: files' =>
      let (s, w) := syncWriteLine w (fst fileInfo) 1 in
      if negb (Status_ok s) then Some (Returned, w)
      else
        let fname := dir +:+ "/" +:+ fst fileInfo in
        let w := act w (ActOpen fname) in
        if negb (is_open fsys fname) then Some (Returned, w)
        else
          let remain := u64 (snd fileInfo) in
          match streamFile (streamFuel remain) fsys fname 0 remain w with
          | None => None
          | Some (Returned, w) => Some (Returned, w)
          | Some (Continue, w) => streamFiles fsys dir files' w
          end
  end.

(** Lines 300-356: what runs while the scope guard is armed. *)
Definition fullSyncBody (fsys : FileSys) (store : Store) (bkInfo : BackupInfo)
    (w : SyncState) : option SyncState :=
  let (s, w) := syncWriteLine w (manifestJson (getFileList bkInfo)) 1 in
  if negb (Status_ok s) then Some w
  else
    match streamFiles fsys (backupDir store) (getFileList bkInfo) w with
    | None => None
    | Some (Returned, w) => Some w
    | Some (Continue, w) => Some (snd (syncReadLine w 1))
    end.

(** [None]: the fuel of a file loop ran out; [Some Aborted]: the store
    pointer was null. *)
Definition supplyFullSyncRoutine (svr : SegmentMgr) (fsys : FileSys)
    (client : BlockingTcpClient) (storeId : Z) : option (Outcome SyncState) :=
  let w := mkSyncState client [] in
  match svr storeId with
  | None => Some Aborted
  | Some store =>
      if negb (Store_isRunning store) then
        Some (Done (snd (syncWriteLine w "-ERR store is not running" 1)))
      else
        let w := act w ActBackup in
        match backup store with
        | Failed st =>
            Some (Done (snd (syncWriteLine w
                               ("-ERR backup failed:" +:+ toString st) 1)))
        | Value bkInfo =>
            match fullSyncBody fsys store bkInfo w with
            | None => None
            | Some w => Some (Done (act w ActReleaseBackup))
            end
        end
  end.

(** ** supplyFullSync (mpov.cpp:24-46) and isFullSupplierFull (mpov.cpp:48-50)

    The worker pool [_fullPusher] is outside this unit: of the pool the code
    asks whether it is full, and hands it a task. *)
Record WorkerPool := mkWorkerPool { isFull : bool }.

Definition isFullSupplierFull (fullPusher : WorkerPool) : bool :=
  isFull fullPusher.

(** How [supplyFullSync] ends: it has answered and dropped the connection,
    it has handed [supplyFullSyncRoutine] for a store to the pool, or the
    conversion of its argument has thrown. *)
Inductive Admission :=
| Refused (client : BlockingTcpClient)
| Scheduled (storeId : Z) (client : BlockingTcpClient)
| Raised (what : string).

(** [stoulInt64] stands for line 37, the [stoul] in scope with its result
    taken as an [Expected<int64_t>]: it throws, fails, or gives a value. *)
Definition supplyFullSync (fullPusher : WorkerPool)
    (stoulInt64 : string -> Thrown (Expected Z))
    (client : BlockingTcpClient) (storeIdArg : string) : Admission :=
  if isFullSupplierFull fullPusher then
    Refused (snd (writeLine client "-ERR workerpool full" 1))
  else
    match stoulInt64 storeIdArg with
    | Throws w => Raised w
    | Returns expStoreId =>
        match expStoreId with
        | Failed _ => Refused (snd (writeLine client "-ERR invalid storeId" 1))
        | Value v =>
            if v <? 0 then
              Refused (snd (writeLine client "-ERR invalid storeId" 1))
            else Scheduled (u32 v) client
        end
    end.

End Model.

Arguments ReplLogKey : clear implicits.
Arguments ReplLogValue : clear implicits.
Arguments ReplLog : clear implicits.
Arguments ReplLogCodec : clear implicits.
Arguments BinlogCursor : clear implicits.
Arguments Transaction : clear implicits.
Arguments Store : clear implicits.
Arguments BatchState : clear implicits.
Arguments LoopExit : clear implicits.
Arguments Chunk : clear implicits.
Arguments Wire : clear implicits.
Arguments NetEvent : clear implicits.
Arguments Peer : clear implicits.
Arguments BlockingTcpClient : clear implicits.
Arguments SegmentMgr : clear implicits.
Arguments MPovStatus : clear implicits.
Arguments ReplManager : clear implicits.
Arguments Action : clear implicits.
Arguments FileSys : clear implicits.
Arguments SyncState : clear implicits.
Arguments Admission : clear implicits.

(** * Vocabulary of the properties *)

Section Vocabulary.

Context {Payload : Type} `{!ByteString Payload} `{!ReplLogCodec Payload}.
Implicit Types (cursor rest : BinlogCursor Payload) (st : BatchState Payload).
Implicit Types (r l : ReplLog Payload) (log batch : list (ReplLog Payload)).
Implicit Types (svr : SegmentMgr Payload) (mgr : ReplManager Payload).
Implicit Types (conn : BlockingTcpClient Payload) (w : SyncState Payload).

(** The txnId of the last row of a batch; 0 for the empty batch. *)
Definition lastTxn (l : list (ReplLog Payload)) : Z :=
  match last l with
  | Some v => txnIdOf v
  | None => 0
  end.

(** [nowId] is the txnId of the row pushed last. *)
Definition tracksLast st : Prop := nowId st = lastTxn (binlogs st).

(** A row starts a transaction after the batch [l], as the loop sees it. *)
Definition boundary (l : list (ReplLog Payload)) r : Prop :=
  lastTxn l = 0 \/ lastTxn l <> txnIdOf r.

(** How the loop stopped, in terms of what the cursor held: at its end, at
    an [ERR_EXHAUST] answer, or at a row that starts a transaction. *)
Inductive stopsAt (taken : list (ReplLog Payload)) (batch : list (ReplLog Payload))
  : BinlogCursor Payload -> BinlogCursor Payload -> Prop :=
| stops_end : stopsAt taken batch (map Value taken) []
| stops_exhaust s rest :
    code s = ERR_EXHAUST ->
    stopsAt taken batch (map Value taken ++ Failed s :: rest) rest
| stops_row r rest :
    boundary batch r ->
    stopsAt taken batch (map Value taken ++ Value r :: rest) rest.

(** No row that the cursor yields has txnId 0. *)
Definition nonzeroTxnIds cursor : Prop :=
  forall r, In (Value r) cursor -> txnIdOf r <> 0.

(** The rows of [cursorFrom], without their wrapping. *)
Definition rowsFrom log (fromId : Z) : list (ReplLog Payload) :=
  List.filter (fun r => fromId <=? txnIdOf r) log.

(** The rows that a cursor opened for position [pos] yields. *)
Definition rowsAfter log (pos : Z) : list (ReplLog Payload) :=
  rowsFrom log (u64 (pos + 1)).

(** The order of the binlog. *)
Definition txnLe r l : Prop := txnIdOf r <= txnIdOf l.

(** A binlog: rows in txnId order, with txnIds that are valid (not 0) and
    below the greatest [uint64_t]. *)
Definition validBinlog log : Prop :=
  StronglySorted txnLe log /\
  Forall (fun r => 1 <= txnIdOf r < UINT64_MAX) log.

(** Successive pushes to one replica: each call of [masterSendBinlog]
    starts from the position the call before it returned, as
    [masterPushRoutine] arranges it. *)
Inductive pushRun (svr : SegmentMgr Payload) (sid dst : Z)
  : BlockingTcpClient Payload -> Z -> list (list (ReplLog Payload)) ->
    BlockingTcpClient Payload -> Z -> Prop :=
| pushRun_nil client pos : pushRun svr sid dst client pos [] client pos
| pushRun_cons client pos batch client1 pos1 batches client2 pos2 :
    gatherBinlogs svr sid pos = Done (Value batch) ->
    masterSendBinlog svr client sid dst pos = Done (Value pos1, client1) ->
    pushRun svr sid dst client1 pos1 batches client2 pos2 ->
    pushRun svr sid dst client pos (batch :: batches) client2 pos2.

(** Modelled from the spec: the binlog cursor of the storage engine is
    missing. By sections 3 and 4.1 a cursor created at [fromId] yields no
    row below [fromId]; the txnIds it yields are taken to be below the
    greatest [uint64_t]. *)
Definition cursorsHonourStart svr : Prop :=
  forall sid store txn fromId r,
    svr sid = Some store ->
    createTransaction store = Value txn ->
    In (Value r) (createBinlogCursor txn fromId) ->
    fromId <= txnIdOf r < UINT64_MAX.

(** The position recorded for a replica, if it has an entry. *)
Definition posAt mgr (sid cid : Z) : option Z :=
  binlogPos <$> (pushStatus mgr sid !! cid).

(** What may happen to the tables between two observations: a run of the
    push routine, a registration under an unused client id, or a step of
    the rest of the server (the scheduler) that touches no position. The
    routines are taken one at a time: [isRunning] keeps two push routines
    off the same entry. *)
Inductive mgrStep : ReplManager Payload -> ReplManager Payload -> Prop :=
| step_push svr now0 now1 sid cid mgr mgr' :
    cursorsHonourStart svr ->
    masterPushRoutine svr now0 now1 mgr sid cid = Done mgr' ->
    mgrStep mgr mgr'
| step_register stoul INSTANCE_NUM now conn
    (storeIdArg dstStoreIdArg binlogPosArg : string) mgr :
    (forall sid, pushStatus mgr sid !! clientIdGen mgr = None) ->
    mgrStep mgr
      (fst (registerIncrSync stoul INSTANCE_NUM now mgr mgr conn
              storeIdArg dstStoreIdArg binlogPosArg))
| step_other mgr mgr' :
    (forall sid cid, posAt mgr' sid cid = posAt mgr sid cid) ->
    mgrStep mgr mgr'.

(** The life of the entry of replica [cid] of store [sid]: steps after each
    of which the entry is still in the table. *)
Inductive lifetime (sid cid : Z)
  : ReplManager Payload -> ReplManager Payload -> Prop :=
| lifetime_refl mgr : lifetime sid cid mgr mgr
| lifetime_step mgr mgr1 mgr2 :
    mgrStep mgr mgr1 ->
    is_Some (pushStatus mgr1 sid !! cid) ->
    lifetime sid cid mgr1 mgr2 ->
    lifetime sid cid mgr mgr2.

(** The conditions of registration, in the words of the specification: the
    three arguments parse, to [storeId], [dstStoreId] and [binlogPos]; both
    store ids are below [INSTANCE_NUM]; [firstBinlogId] of the store is at
    most [binlogPos] at the first check and at the second; and the slave
    answers the master's [+OK] with exactly [+PONG]. *)
Definition registrationConditions (stoul : string -> Thrown Z)
    (INSTANCE_NUM : Z) mgr0 mgr1 conn
    (storeIdArg dstStoreIdArg binlogPosArg : string)
    (storeId dstStoreId binlogPos : Z) : Prop :=
  (exists a b c,
      stoul storeIdArg = Returns a /\ stoul dstStoreIdArg = Returns b /\
      stoul binlogPosArg = Returns c /\
      storeId = u64 a /\ dstStoreId = u64 b /\ binlogPos = u64 c) /\
  storeId < INSTANCE_NUM /\
  dstStoreId < INSTANCE_NUM /\
  firstBinlogId mgr0 storeId <= binlogPos /\
  firstBinlogId mgr1 storeId <= binlogPos /\
  answerRead (peer conn) (history conn ++ [WriteLine "+OK" 1]) 1 =
    Value "+PONG".

(** The manager with one more entry, under a fresh client id. *)
Definition withEntry mgr1 (storeId : Z) (e : MPovStatus Payload)
  : ReplManager Payload :=
  mkReplManager
    (<[storeId := <[clientIdGen mgr1 := e]> (pushStatus mgr1 storeId)]>
       (pushStatus mgr1))
    (firstBinlogId mgr1)
    (u64 (clientIdGen mgr1 + 1)).

(** What the body of the routine does: anything but taking or releasing a
    backup. *)
Definition streaming (a : Action Payload) : Prop :=
  match a with
  | ActBackup | ActReleaseBackup => False
  | _ => True
  end.

(** [w'] continues [w] by streaming actions only. *)
Definition extends w w' : Prop :=
  exists tr, syncTrace w' = syncTrace w ++ tr /\ Forall streaming tr.

(** The reads of files in a trace: file, offset and count, in order. *)
Definition readsOf (tr : list (Action Payload)) : list (string * Z * Z) :=
  flat_map (fun a => match a with
                     | ActRead fname offset count => [(fname, offset, count)]
                     | _ => []
                     end) tr.

(** What the trace writes to the slave as data, in order. *)
Definition dataWritten (tr : list (Action Payload)) : list (Wire Payload) :=
  flat_map (fun a => match a with
                     | ActNet (WriteData data _) => [data]
                     | _ => []
                     end) tr.

(** The lines that the trace writes to the slave, in order. *)
Definition linesWritten (tr : list (Action Payload)) : list string :=
  flat_map (fun a => match a with
                     | ActNet (WriteLine line _) => [line]
                     | _ => []
                     end) tr.

(** The number of bytes that the trace asks of the file system. *)
Definition totalRead (tr : list (Action Payload)) : Z :=
  fold_right (fun rd n => snd rd + n) 0 (readsOf tr).

(** Reads that cover [remain] bytes of one file from [offset] on, piece
    after piece, no piece empty or above [readBufCapacity], and only the last
    one below it. *)
Inductive tiles (fname : string) : Z -> Z -> list (string * Z * Z) -> Prop :=
| tiles_nil offset : tiles fname offset 0 []
| tiles_cons offset remain count reads :
    0 < count <= readBufCapacity ->
    count <= remain ->
    (count < readBufCapacity -> count = remain) ->
    tiles fname (offset + count) (remain - count) reads ->
    tiles fname offset remain ((fname, offset, count) :: reads).

(** What the loops over the files do: they write lines and data, open and
    read files, and never read from the slave. *)
Definition fileAction (a : Action Payload) : Prop :=
  match a with
  | ActOpen _ | ActRead _ _ _ => True
  | ActNet (WriteLine _ _) | ActNet (WriteData _ _) => True
  | _ => False
  end.

(** The sum of the sizes of a list of files, each as a [size_t]. *)
Definition totalSize (files : list (string * Z)) : Z :=
  fold_right (fun fileInfo n => u64 (snd fileInfo) + n) 0 files.

(** The payloads of a frame, without the text around them. *)
Definition rawChunks (ss : Wire Payload) : list Payload :=
  flat_map (fun c => match c with Raw p => [p] | Text _ => [] end) ss.

(** The sum of the payload sizes of rows. *)
Definition sizeSum (rows : list (ReplLog Payload)) : Z :=
  fold_right (fun r n => opSizeOf r + n) 0 rows.

(** The frames that went over a connection, in order. *)
Definition framesWritten (h : list (NetEvent Payload)) : list (Wire Payload) :=
  flat_map (fun e => match e with
                     | WriteData data _ => [data]
                     | _ => []
                     end) h.

(** The two payloads a row is sent as. *)
Definition encodedPair (r : ReplLog Payload) : list Payload :=
  [fst (encode r); snd (encode r)].

(** The counters of the loop are the number and the sizes of the rows
    pushed, in the widths of their types. *)
Definition countersTrack (st : BatchState Payload) : Prop :=
  cnt st = u32 (Z.of_nat (length (binlogs st))) /\
  estimateSize st = u64 (sizeSum (binlogs st)).

End Vocabulary.

(** * Data of the scenarios *)

(** A payload given by its bytes, or by its size alone. *)
Inductive Bytes :=
| Lit (s : string)
| Blob (size : Z).

#[export] Instance Bytes_size : ByteString Bytes :=
  fun b => match b with Lit s => strlen s | Blob n => n end.

Definition row (txn : Z) (op : Bytes) : ReplLog Bytes :=
  mkReplLog (mkReplLogKey txn) (mkReplLogValue op).

#[export] Instance Bytes_codec : ReplLogCodec Bytes :=
  fun r => (Lit (pretty (txnIdOf r)), getOpValue (getReplLogValue r)).

(** A slave that takes every write and answers every read with [+OK]. *)
Definition okPeer : Peer Bytes :=
  mkPeer (fun _ => OK) (fun _ _ => Value "+OK").

Definition okClient : BlockingTcpClient Bytes := mkClient "slave" okPeer [].

(** One store, with id 0, holding the given binlog. *)
Definition oneStore (log : list (ReplLog Bytes)) : SegmentMgr Bytes :=
  fun storeId => if storeId =? 0 then Some (storeOfLog log) else None.

Definition MiB : Z := 1024 * 1024.

(** Scenario A: two rows of transaction 10, one of transaction 11. *)
Definition logA : list (ReplLog Bytes) :=
  [row 10 (Lit "a"); row 10 (Lit "b"); row 11 (Lit "c")].

(** Scenario C: seventy transactions of one row of one byte. *)
Definition logC : list (ReplLog Bytes) :=
  map (fun i => row (Z.of_nat i) (Lit "x")) (seq 1 70).

(** Scenario D: one transaction of three rows of 10 MiB. *)
Definition logD : list (ReplLog Bytes) :=
  [row 5 (Blob (10 * MiB)); row 5 (Blob (10 * MiB)); row 5 (Blob (10 * MiB))].

(** A single transaction whose first row alone reaches [suggestBytes]. *)
Definition logBig : list (ReplLog Bytes) :=
  [row 5 (Blob (16 * MiB)); row 5 (Lit "x")].

(** Two rows that share txnId 0. *)
Definition logZero : list (ReplLog Bytes) :=
  [row 0 (Blob (10 * MiB)); row 0 (Blob (10 * MiB))].

(** A stand-in for [std::stoul] on what a slave sends, plain decimal
    numerals: it throws on anything else, and on a value that does not fit
    [unsigned long]. *)
Definition digitOf (c : ascii) : option Z :=
  let n := Z.of_N (N_of_ascii c) in
  if (48 <=? n) && (n <=? 57) then Some (n - 48) else None.

Fixpoint parseDigits (s : string) (acc : Z) : option Z :=
  match s with
  | EmptyString => Some acc
  | String c s' =>
      match digitOf c with
      | Some d => parseDigits s' (acc * 10 + d)
      | None => None
      end
  end.

Definition stoulDec (s : string) : Thrown Z :=
  match s with
  | EmptyString => Throws "stoul"
  | _ =>
      match parseDigits s 0 with
      | Some n => if n <? UINT64_MOD then Returns n else Throws "stoul"
      | None => Throws "stoul"
      end
  end.

(** A slave that takes every write, answers the first read with [+PONG]
    and every later read with [+OK]. *)
Definition isRead (e : NetEvent Bytes) : bool :=
  match e with ReadLine _ _ => true | _ => false end.

Definition slavePeer : Peer Bytes :=
  mkPeer (fun _ => OK)
         (fun h _ => if existsb isRead h then Value "+OK" else Value "+PONG").

Definition slaveClient : BlockingTcpClient Bytes := mkClient "slave" slavePeer [].

(** A manager with no replica; [first] is [firstBinlogId] of every store. *)
Definition emptyMgr (first : Z) : ReplManager Bytes :=
  mkReplManager (fun _ => ∅) (fun _ => first) 0.

(** Modelled from the spec: the scheduler of repl_manager.cpp is missing.
    By section 4.4.3 it takes an entry that is not running and whose
    [nextSchedTime] has come, sets [isRunning], and hands the entry to
    [masterPushRoutine]. *)
Definition dispatch (now : Z) (mgr : ReplManager Bytes) (storeId cid : Z)
  : ReplManager Bytes :=
  match pushStatus mgr storeId !! cid with
  | Some e =>
      if negb (isRunning e) && (nextSchedTime e <=? now) then
        setPushStatus mgr storeId
          (<[cid := mkMPovStatus true (dstStoreId e) (binlogPos e)
                      (nextSchedTime e) (client e) (clientId e)]>
             (pushStatus mgr storeId))
      else mgr
  | None => mgr
  end.

(** The manager after a slave has sent [INCRSYNC 0 0 pos] to a master
    with ten stores and the scheduler has picked the new entry. *)
Definition registered (first : Z) (posArg : string) : ReplManager Bytes :=
  dispatch 0
    (fst (registerIncrSync stoulDec 10 0 (emptyMgr first) (emptyMgr first)
            slaveClient "0" "0" posArg))
    0 0.

(** Scenario E: a running store whose backup has two files, and a file
    system that serves them. *)
Definition backupE : BackupInfo :=
  mkBackupInfo [("000001.sst", 4096); ("MANIFEST", 12)].

Definition storeE : Store Bytes :=
  mkStore (Value (mkTransaction (cursorFrom []))) true (Value backupE) OK "bk".

Definition fsysE : FileSys Bytes :=
  mkFileSys (fun _ => true) (fun _ _ count => Some (Blob count)).

(** Scenario A after one run of the push routine. *)
Definition pushedA : ReplManager Bytes :=
  match masterPushRoutine (oneStore logA) 0 1 (registered 0 "9") 0 0 with
  | Done mgr => mgr
  | Aborted => registered 0 "9"
  end.

(** A slave whose connection refuses every write. *)
Definition deafPeer : Peer Bytes :=
  mkPeer (fun _ => mkStatus ERR_NETWORK "write failed")
         (fun _ _ => Failed (mkStatus ERR_TIMEOUT "read timeout")).

Definition deafClient : BlockingTcpClient Bytes := mkClient "slave" deafPeer [].

(** A store that cannot open a transaction, and a store that is stopped. *)
Definition noTxn : Status := mkStatus ERR_INTERNAL "no txn".

Definition storeNoTxn : Store Bytes :=
  mkStore (Failed noTxn) true (Value backupE) OK "bk".

Definition storeStopped : Store Bytes :=
  mkStore (Value (mkTransaction (cursorFrom []))) false (Value backupE) OK "bk".

(** The entry of the slave in [registered first pos], as the scheduler
    hands it to the push routine. *)
Definition entryOf (pos : Z) : MPovStatus Bytes :=
  mkMPovStatus true 0 pos 0
    (mkClient "slave" slavePeer [WriteLine "+OK" 1; ReadLine 1 (Value "+PONG")])
    0.

#[export] Instance txnLe_dec : RelDecision (@txnLe Bytes) :=
  fun r l => Z.le_dec (txnIdOf r) (txnIdOf l).


(** * Properties *)

Section Batching.

Context {Payload : Type} `{!ByteString Payload}.
Implicit Types (cursor rest : BinlogCursor Payload) (st : BatchState Payload).
Implicit Types (r : ReplLog Payload) (rows taken : list (ReplLog Payload)).

(** The loop, read through [cursor->next()]: one turn of [while (true)]. *)
Lemma batchLoop_next cursor st :
  batchLoop cursor st =
  match next cursor with
  | (Value explog, cursor') =>
      let cnt' := u32 (cnt st + 1) in
      let estimate' := u64 (estimateSize st + opSizeOf explog) in
      if startsTxn st explog then
        if overThreshold cnt' estimate' then
          Break (mkBatchState (binlogs st) cnt' (txnIdOf explog) estimate')
                cursor'
        else
          batchLoop cursor'
            (mkBatchState (binlogs st ++ [explog]) cnt' (txnIdOf explog)
                          estimate')
      else
        batchLoop cursor'
          (mkBatchState (binlogs st ++ [explog]) cnt' (nowId st) estimate')
  | (Failed s, cursor') =>
      if ErrorCodes_eqb (code s) ERR_EXHAUST then Break st cursor'
      else Return s
  end.
Proof. destruct cursor as [ | [explog | s] cursor' ]; reflexivity. Qed.

Lemma lastTxn_snoc rows r : lastTxn (rows ++ [r]) = txnIdOf r.
Proof. unfold lastTxn. now rewrite last_snoc. Qed.

Lemma tracksLast_init : tracksLast (batchInit (Payload := Payload)).
Proof. reflexivity. Qed.

Lemma startsTxn_true st r :
  tracksLast st -> startsTxn st r = true -> boundary (binlogs st) r.
Proof.
  unfold tracksLast, startsTxn, boundary. intros <- H.
  apply orb_true_iff in H as [H | H].
  - left. now apply Z.eqb_eq.
  - right. apply negb_true_iff in H. now apply Z.eqb_neq.
Qed.

Lemma startsTxn_false st r :
  startsTxn st r = false -> nowId st = txnIdOf r /\ nowId st <> 0.
Proof.
  unfold startsTxn. intros H. apply orb_false_iff in H as [H0 H1].
  apply negb_false_iff in H1. apply Z.eqb_eq in H1. apply Z.eqb_neq in H0.
  now split.
Qed.

Lemma stopsAt_cons taken batch r cursor rest :
  stopsAt taken batch cursor rest ->
  stopsAt (r :: taken) batch (Value r :: cursor) rest.
Proof.
  intros [ | s rest' Hs | r' rest' Hb ].
  - apply (stops_end (r :: taken)).
  - apply (stops_exhaust (r :: taken) batch s rest' Hs).
  - apply (stops_row (r :: taken) batch r' rest' Hb).
Qed.

Lemma ErrorCodes_eqb_eq a b : ErrorCodes_eqb a b = true <-> a = b.
Proof. destruct a, b; simpl; split; congruence. Qed.

(** The loop pushes a prefix of the rows of the cursor, in order, and stops
    only where [stopsAt] says. *)
Lemma batchLoop_Break cursor : forall st st' rest,
  tracksLast st ->
  batchLoop cursor st = Break st' rest ->
  exists taken,
    binlogs st' = binlogs st ++ taken /\
    stopsAt taken (binlogs st') cursor rest.
Proof.
  induction cursor as [ | [explog | s] cursor IH ]; intros st st' rest Hst H;
    simpl in H.
  - injection H as <- <-. exists []. rewrite app_nil_r. split; [easy | constructor].
  - destruct (startsTxn st explog) eqn:Hstart.
    + destruct (overThreshold _ _).
      * injection H as <- <-. exists []. simpl. rewrite app_nil_r.
        split; [easy | ]. apply (stops_row [] _ explog cursor).
        now apply startsTxn_true.
      * apply IH in H as (taken & Hb & Hs).
        -- exists (explog :: taken). simpl in Hb. rewrite <- app_assoc in Hb.
           split; [easy | now apply stopsAt_cons].
        -- unfold tracksLast. simpl. now rewrite lastTxn_snoc.
    + apply IH in H as (taken & Hb & Hs).
      * exists (explog :: taken). simpl in Hb. rewrite <- app_assoc in Hb.
        split; [easy | now apply stopsAt_cons].
      * unfold tracksLast. simpl. rewrite lastTxn_snoc.
        now apply startsTxn_false in Hstart.
  - destruct (ErrorCodes_eqb (code s) ERR_EXHAUST) eqn:Hc; [ | discriminate ].
    injection H as <- <-. exists []. rewrite app_nil_r. split; [easy | ].
    apply (stops_exhaust [] _ s cursor). now apply ErrorCodes_eqb_eq.
Qed.

(** The loop reports a failure only for a failure of the cursor. *)
Lemma batchLoop_Return cursor : forall st s,
  batchLoop cursor st = Return s ->
  In (Failed s) cursor /\ code s <> ERR_EXHAUST.
Proof.
  induction cursor as [ | [explog | s'] cursor IH ]; intros st s H; simpl in H.
  - discriminate.
  - destruct (startsTxn st explog); [ destruct (overThreshold _ _) | ];
      try discriminate; apply IH in H as [H1 H2]; split; auto; now right.
  - destruct (ErrorCodes_eqb (code s') ERR_EXHAUST) eqn:Hc; [ discriminate | ].
    injection H as ->. split; [ now left | ].
    intros E. apply ErrorCodes_eqb_eq in E. congruence.
Qed.

(** No threshold is consulted for a row of the transaction under way. *)
Lemma batchLoop_same_txn rows : forall cursor st,
  nowId st <> 0 ->
  Forall (fun r => txnIdOf r = nowId st) rows ->
  exists c e,
    batchLoop (map Value rows ++ cursor) st =
    batchLoop cursor (mkBatchState (binlogs st ++ rows) c (nowId st) e).
Proof.
  induction rows as [ | r rows IH ]; intros cursor st Hnz Hall.
  - exists (cnt st), (estimateSize st). rewrite app_nil_r. now destruct st.
  - inversion Hall as [ | ? ? Hr Hrows ]; subst. simpl.
    assert (startsTxn st r = false) as ->.
    { unfold startsTxn. rewrite Hr, Z.eqb_refl.
      apply Z.eqb_neq in Hnz. now rewrite Hnz. }
    edestruct (IH cursor) as (c & e & ->); [ | | ]; simpl; [ easy | easy | ].
    exists c, e. now rewrite <- app_assoc.
Qed.

Lemma stopsAt_prefix taken batch cursor rest :
  stopsAt taken batch cursor rest -> exists tail, cursor = map Value taken ++ tail.
Proof.
  intros [ | s rest' _ | r rest' _ ]; eauto.
  exists []. now rewrite app_nil_r.
Qed.

Lemma map_Value_inj rows rows' :
  map (@Value (ReplLog Payload)) rows = map Value rows' -> rows = rows'.
Proof.
  revert rows'. induction rows as [ | r rows IH ]; intros [ | r' rows' ] H;
    try discriminate; [ easy | ].
  simpl in H. injection H as -> H. f_equal. now apply IH.
Qed.

(** The row that follows the batch in the cursor, if any, belongs to another
    transaction than the last row of the batch. *)
Lemma stopsAt_next_row taken cursor rest r tail l :
  nonzeroTxnIds cursor ->
  stopsAt taken taken cursor rest ->
  cursor = map Value taken ++ Value r :: tail ->
  last taken = Some l ->
  txnIdOf l <> txnIdOf r.
Proof.
  intros Hnz Hstop Hcur Hlast.
  assert (Hl : txnIdOf l <> 0).
  { apply Hnz. rewrite Hcur. apply in_or_app. left. apply in_map.
    apply last_Some in Hlast as [l' ->]. apply in_or_app. right. now left. }
  assert (Hlt : lastTxn taken = txnIdOf l) by (unfold lastTxn; now rewrite Hlast).
  destruct Hstop as [ | s rest' _ | r' rest' Hb ].
  - exfalso. apply (f_equal (@length _)) in Hcur.
    rewrite length_app in Hcur. simpl in Hcur. lia.
  - apply app_inv_head in Hcur. discriminate.
  - apply app_inv_head in Hcur. injection Hcur as -> _.
    destruct Hb as [Hb | Hb]; congruence.
Qed.

End Batching.

Section Sending.

Context {Payload : Type} `{!ByteString Payload} `{!ReplLogCodec Payload}.
Implicit Types (svr : SegmentMgr Payload) (client : BlockingTcpClient Payload).
Implicit Types (batch : list (ReplLog Payload)).

Lemma string_neb_false a b : string_neb a b = false -> a = b.
Proof.
  unfold string_neb. intros H. apply negb_false_iff in H.
  now apply String.eqb_eq.
Qed.

(** A call of [sendBinlogs] that reports a position wrote the frame of the
    batch, read [+OK], and did nothing else on the connection. *)
Lemma sendBinlogs_Value client dst pos batch newPos client' :
  sendBinlogs client dst pos batch = (Value newPos, client') ->
  history client' =
    history client ++
      [WriteData (frameBinlogs dst batch)
                 (writeTimeoutSecs (wireSize (frameBinlogs dst batch)));
       ReadLine (writeTimeoutSecs (wireSize (frameBinlogs dst batch)))
                (Value "+OK")] /\
  newPos = match last batch with Some v => txnIdOf v | None => pos end.
Proof.
  unfold sendBinlogs, writeData, readLine. cbn zeta.
  set (ss := frameBinlogs dst batch). set (secs := writeTimeoutSecs (wireSize ss)).
  intros H.
  destruct (negb (Status_ok _)); [ discriminate | ]. cbn in H.
  destruct (answerRead _ _ _) as [line | s'] eqn:Hread; [ | discriminate ].
  destruct (string_neb line "+OK") eqn:Hline; [ discriminate | ].
  apply string_neb_false in Hline. subst line.
  destruct (last batch); injection H as <- <-; cbn;
    now rewrite <- app_assoc.
Qed.

Lemma masterSendBinlog_Value svr client sid dst pos newPos client' :
  masterSendBinlog svr client sid dst pos = Done (Value newPos, client') ->
  exists batch,
    gatherBinlogs svr sid pos = Done (Value batch) /\
    sendBinlogs client dst pos batch = (Value newPos, client').
Proof.
  unfold masterSendBinlog. intros H.
  destruct (gatherBinlogs svr sid pos) as [ [batch | s] | ]; try discriminate.
  exists batch. split; [ easy | congruence ].
Qed.



End Sending.

Section Framing.

Context {Payload : Type} `{!ByteString Payload} `{!ReplLogCodec Payload}.
Implicit Types (svr : SegmentMgr Payload) (client : BlockingTcpClient Payload).
Implicit Types (ss : Wire Payload) (logs : list (ReplLog Payload)).

Lemma rawChunks_app ss1 ss2 : rawChunks (ss1 ++ ss2) = rawChunks ss1 ++ rawChunks ss2.
Proof. unfold rawChunks. apply flat_map_app. Qed.

Lemma frame_rows logs : forall ss,
  let framed :=
    fold_left (fun ss v =>
                 let kv := encode v in
                 let ss := fmtBulk ss (Raw (fst kv)) in
                 fmtBulk ss (Raw (snd kv))) logs ss in
  rawChunks framed = rawChunks ss ++ flat_map encodedPair logs /\
  length framed = (length ss + 6 * length logs)%nat /\
  head framed = match ss with [] => head framed | c :: _ => Some c end.
Proof.
  induction logs as [ | r logs IH ]; intros ss; cbn zeta.
  - simpl. rewrite app_nil_r. split; [ reflexivity | ].
    split; [ lia | now destruct ss ].
  - simpl fold_left. specialize (IH (fmtBulk (fmtBulk ss (Raw (fst (encode r))))
                                       (Raw (snd (encode r))))).
    cbn zeta in IH. destruct IH as (Hraw & Hlen & Hhead).
    split; [ | split ].
    + rewrite Hraw. unfold fmtBulk. rewrite !rawChunks_app. simpl.
      rewrite <- !app_assoc. reflexivity.
    + rewrite Hlen. unfold fmtBulk. rewrite !length_app. simpl. lia.
    + destruct ss as [ | c ss ]; [ reflexivity | ].
      rewrite Hhead. reflexivity.
Qed.

Lemma frameBinlogs_raw dst logs :
  rawChunks (frameBinlogs dst logs) = flat_map encodedPair logs.
Proof.
  unfold frameBinlogs. cbn zeta.
  set (ss := fmtBulk (fmtBulk (fmtMultiBulkLen [] _) _) _).
  destruct (frame_rows logs ss) as (Hraw & _). cbn zeta in *.
  rewrite Hraw. reflexivity.
Qed.

Lemma framesWritten_app (h1 h2 : list (NetEvent Payload)) :
  framesWritten (h1 ++ h2) = framesWritten h1 ++ framesWritten h2.
Proof. unfold framesWritten. apply flat_map_app. Qed.

(** The payloads of the frames of batches are the encoded rows of the
    batches, one batch after the other. *)
Lemma frames_raw dst (batches : list (list (ReplLog Payload))) :
  flat_map rawChunks (map (frameBinlogs dst) batches) =
  flat_map encodedPair (concat batches).
Proof.
  induction batches as [ | batch batches IH ]; [ reflexivity | ].
  simpl. rewrite IH, frameBinlogs_raw, flat_map_app. reflexivity.
Qed.

(** What a successful call leaves in the history of the connection. *)
Lemma masterSendBinlog_history svr client sid dst pos logs newPos client' :
  gatherBinlogs svr sid pos = Done (Value logs) ->
  masterSendBinlog svr client sid dst pos = Done (Value newPos, client') ->
  exists secs,
    history client' =
      history client ++
        [WriteData (frameBinlogs dst logs) secs; ReadLine secs (Value "+OK")].
Proof.
  intros Hgather Hsend.
  apply masterSendBinlog_Value in Hsend as (logs' & Hgather' & Hsend).
  rewrite Hgather in Hgather'. injection Hgather' as <-.
  apply sendBinlogs_Value in Hsend as [Hh _]. eexists. exact Hh.
Qed.

End Framing.

Section WholeTransactions.

Context {Payload : Type} `{!ByteString Payload}.
Implicit Types (svr : SegmentMgr Payload) (batch : list (ReplLog Payload)).

Lemma gatherBinlogs_Value svr sid pos store txn batch :
  svr sid = Some store ->
  createTransaction store = Value txn ->
  gatherBinlogs svr sid pos = Done (Value batch) ->
  exists rest,
    stopsAt batch batch (createBinlogCursor txn (u64 (pos + 1))) rest.
Proof.
  unfold gatherBinlogs. intros -> -> H.
  destruct (batchLoop _ _) as [st rest | s] eqn:Hloop; [ | discriminate ].
  injection H as <-.
  apply batchLoop_Break in Hloop as (taken & Hb & Hstop);
    [ | apply tracksLast_init ].
  simpl in Hb. rewrite Hb in *. now exists rest.
Qed.

(** A transaction whose first row passes the thresholds is taken whole. *)
Lemma batchLoop_one_txn (r0 : ReplLog Payload) rows :
  txnIdOf r0 <> 0 ->
  Forall (fun r => txnIdOf r = txnIdOf r0) rows ->
  u64 (opSizeOf r0) < suggestBytes ->
  exists st, batchLoop (map Value (r0 :: rows)) batchInit = Break st [] /\
             binlogs st = r0 :: rows.
Proof.
  intros Hnz Hall Hsize. simpl.
  assert (overThreshold (u32 (0 + 1)) (u64 (0 + opSizeOf r0)) = false) as ->.
  { unfold overThreshold. apply orb_false_iff. split.
    - reflexivity.
    - rewrite Z.add_0_l. unfold Z.geb.
      destruct (u64 (opSizeOf r0) ?= suggestBytes) eqn:E; try reflexivity;
        [ apply Z.compare_eq in E | apply Z.compare_gt_iff in E ]; lia. }
  set (st1 := mkBatchState _ _ _ _).
  destruct (batchLoop_same_txn rows [] st1) as (c & e & Heq); [ easy | easy | ].
  rewrite app_nil_r in Heq. rewrite Heq. simpl. eexists. split; reflexivity.
Qed.

(** C3 (amended). Let the cursor that [masterSendBinlog] opens yield rows
    with nonzero txnIds only. Then the batch is a prefix of what the cursor
    yields, and the row that follows the batch, if there is one, belongs to
    another transaction than the last row of the batch: the thresholds are
    consulted only at a row that starts a transaction. So when the cursor
    yields the rows of a single transaction and the first of them is below
    [suggestBytes], the batch holds them all, whatever their total size. *)
Theorem batch_never_splits_a_transaction svr sid pos store txn :
  svr sid = Some store ->
  createTransaction store = Value txn ->
  nonzeroTxnIds (createBinlogCursor txn (u64 (pos + 1))) ->
  (forall batch,
      gatherBinlogs svr sid pos = Done (Value batch) ->
      (exists tail,
          createBinlogCursor txn (u64 (pos + 1)) = map Value batch ++ tail) /\
      (forall r tail l,
          createBinlogCursor txn (u64 (pos + 1)) =
            map Value batch ++ Value r :: tail ->
          last batch = Some l ->
          txnIdOf l <> txnIdOf r)) /\
  (forall r0 rows,
      createBinlogCursor txn (u64 (pos + 1)) = map Value (r0 :: rows) ->
      Forall (fun r => txnIdOf r = txnIdOf r0) rows ->
      u64 (opSizeOf r0) < suggestBytes ->
      gatherBinlogs svr sid pos = Done (Value (r0 :: rows))).
Proof.
  intros Hstore Htxn Hnz. split.
  - intros batch Hgather.
    destruct (gatherBinlogs_Value _ _ _ _ _ _ Hstore Htxn Hgather)
      as [rest Hstop].
    split.
    + eapply stopsAt_prefix, Hstop.
    + intros r tail l Hcur Hlast.
      eapply stopsAt_next_row; eassumption.
  - intros r0 rows Hcur Hall Hsize.
    unfold gatherBinlogs. rewrite Hstore, Htxn, Hcur.
    destruct (batchLoop_one_txn r0 rows) as (st & -> & ->); try assumption.
    + apply Hnz. rewrite Hcur. now left.
    + reflexivity.
Qed.

End WholeTransactions.

Section Resumption.

Context {Payload : Type} `{!ByteString Payload} `{!ReplLogCodec Payload}.
Implicit Types (log batch tail : list (ReplLog Payload)) (r l : ReplLog Payload).

Lemma cursorFrom_rowsAfter log pos :
  cursorFrom log (u64 (pos + 1)) = map Value (rowsAfter log pos).
Proof. reflexivity. Qed.

Lemma rowsFrom_In log q r : In r (rowsFrom log q) <-> In r log /\ q <= txnIdOf r.
Proof. unfold rowsFrom. rewrite filter_In, Z.leb_le. reflexivity. Qed.

Lemma rowsFrom_none log q :
  Forall (fun r => txnIdOf r < q) log -> rowsFrom log q = [].
Proof.
  induction 1 as [ | r log Hr _ IH ]; [ reflexivity | ]. simpl.
  destruct (Z.leb_spec q (txnIdOf r)); [ lia | exact IH ].
Qed.

Lemma rowsFrom_all log q :
  Forall (fun r => q <= txnIdOf r) log -> rowsFrom log q = log.
Proof.
  induction 1 as [ | r log Hr _ IH ]; [ reflexivity | ]. simpl.
  destruct (Z.leb_spec q (txnIdOf r)); [ now f_equal | lia ].
Qed.

Lemma rowsFrom_rowsFrom log q q' :
  q <= q' -> rowsFrom (rowsFrom log q) q' = rowsFrom log q'.
Proof.
  intros Hq. induction log as [ | r log IH ]; [ reflexivity | ]. simpl.
  destruct (Z.leb_spec q (txnIdOf r)), (Z.leb_spec q' (txnIdOf r));
    simpl; try rewrite IH; try lia;
    destruct (Z.leb_spec q' (txnIdOf r)); try lia; reflexivity.
Qed.

Lemma rowsFrom_sorted log q :
  StronglySorted txnLe log -> StronglySorted txnLe (rowsFrom log q).
Proof.
  induction 1 as [ | r log _ IH Hall ]; [ constructor | ]. simpl.
  destruct (q <=? txnIdOf r); [ | exact IH ].
  constructor; [ exact IH | ].
  apply List.Forall_forall. intros x Hx. apply rowsFrom_In in Hx as [Hx _].
  rewrite List.Forall_forall in Hall. now apply Hall.
Qed.

(** In a sorted list the rows before the last row of a prefix are not above
    it, and the rows after the first row of the rest are not below it. *)
Lemma sorted_split batch tail l :
  StronglySorted txnLe (batch ++ tail) ->
  last batch = Some l ->
  Forall (fun r => txnIdOf r <= txnIdOf l) batch /\
  Forall (fun r => txnIdOf l <= txnIdOf r) tail.
Proof.
  intros Hs Hlast. apply last_Some in Hlast as [batch' ->].
  apply StronglySorted_app in Hs as (Hcross & Hb & _).
  apply StronglySorted_app in Hb as (Hb & _ & _).
  split; apply List.Forall_forall; intros x Hx.
  - apply in_app_or in Hx as [Hx | [<- | []]]; [ | unfold txnLe; lia ].
    apply Hb; [ now apply list_elem_of_In | apply list_elem_of_In; now left ].
  - apply Hcross; [ | now apply list_elem_of_In ].
    apply list_elem_of_In, in_or_app. right. now left.
Qed.

(** Where the batch ends inside the rows of a cursor, a cursor opened just
    after the txnId of its last row yields the rest. *)
Lemma rowsFrom_resume log q batch tail l :
  StronglySorted txnLe log ->
  rowsFrom log q = batch ++ tail ->
  last batch = Some l ->
  (forall r, head tail = Some r -> txnIdOf l <> txnIdOf r) ->
  rowsFrom log (txnIdOf l + 1) = tail.
Proof.
  intros Hsorted Hsplit Hlast Hnext.
  assert (Hq : q <= txnIdOf l).
  { apply (rowsFrom_In log q l). rewrite Hsplit.
    apply last_Some in Hlast as [batch' ->].
    apply in_or_app. left. apply in_or_app. right. now left. }
  pose proof (rowsFrom_sorted log q Hsorted) as HF. rewrite Hsplit in HF.
  destruct (sorted_split _ _ _ HF Hlast) as [Hbatch Htail].
  rewrite <- (rowsFrom_rowsFrom log q) by lia.
  rewrite Hsplit. unfold rowsFrom at 1. rewrite List.filter_app.
  fold (rowsFrom batch (txnIdOf l + 1)) (rowsFrom tail (txnIdOf l + 1)).
  rewrite rowsFrom_none, rowsFrom_all; [ reflexivity | | ].
  - apply StronglySorted_app in HF as (_ & _ & Ht).
    destruct tail as [ | r tail' ]; [ constructor | ].
    specialize (Hnext r eq_refl).
    inversion Htail as [ | ? ? Hr _ ]; subst.
    apply StronglySorted_cons in Ht as [Hall _].
    constructor; [ lia | ].
    eapply List.Forall_impl; [ | exact Hall ]. unfold txnLe. simpl. intros; lia.
  - eapply List.Forall_impl; [ | exact Hbatch ]. simpl. intros; lia.
Qed.

Lemma map_Value_app F batch (c : BinlogCursor Payload) :
  map Value F = map Value batch ++ c ->
  exists tail, F = batch ++ tail /\ c = map Value tail.
Proof.
  intros H. apply map_eq_app in H as (b' & tail & -> & Hb & <-).
  apply map_Value_inj in Hb as ->. now exists tail.
Qed.

Lemma storeOfLog_stopsAt log (svr : SegmentMgr Payload) sid pos batch :
  svr sid = Some (storeOfLog log) ->
  gatherBinlogs svr sid pos = Done (Value batch) ->
  exists tail,
    rowsAfter log pos = batch ++ tail /\
    forall r, head tail = Some r -> boundary batch r.
Proof.
  intros Hsvr Hgather.
  destruct (gatherBinlogs_Value svr sid pos _ _ batch Hsvr eq_refl Hgather)
    as [rest Hstop].
  simpl in Hstop. rewrite cursorFrom_rowsAfter in Hstop.
  inversion Hstop as [ Hc Hr | s rest' Hcode Hc Hr | r rest' Hb Hc Hr ].
  - apply map_Value_inj in Hc as <-. exists []. rewrite app_nil_r.
    split; [ reflexivity | discriminate ].
  - symmetry in Hc. apply map_Value_app in Hc as (tail & _ & Hc).
    destruct tail; discriminate.
  - symmetry in Hc. apply map_Value_app in Hc as (tail & Hsplit & Hc).
    destruct tail as [ | r' tail ]; [ discriminate | ].
    injection Hc as <- _. exists (r :: tail). split; [ exact Hsplit | ].
    intros r0 [= <-]. exact Hb.
Qed.

Lemma u64_small z : 0 <= z < UINT64_MOD -> u64 z = z.
Proof. apply Z.mod_small. Qed.

(** One successful push: what was sent, followed by what the next cursor
    yields, is what this cursor yielded. *)
Lemma push_once log (svr : SegmentMgr Payload) sid dst client pos batch pos1 client1 :
  validBinlog log ->
  svr sid = Some (storeOfLog log) ->
  gatherBinlogs svr sid pos = Done (Value batch) ->
  masterSendBinlog svr client sid dst pos = Done (Value pos1, client1) ->
  batch ++ rowsAfter log pos1 = rowsAfter log pos.
Proof.
  intros [Hsorted Hrange] Hsvr Hgather Hsend.
  apply masterSendBinlog_Value in Hsend as (batch' & Hgather' & Hsend).
  rewrite Hgather in Hgather'. injection Hgather' as <-.
  apply sendBinlogs_Value in Hsend as [_ Hpos].
  destruct (storeOfLog_stopsAt log svr sid pos batch Hsvr Hgather)
    as (tail & Hsplit & Hnext).
  destruct (last batch) as [l | ] eqn:Hlast.
  - assert (Hl : 1 <= txnIdOf l < UINT64_MAX).
    { rewrite List.Forall_forall in Hrange. apply Hrange.
      apply (rowsFrom_In log (u64 (pos + 1))). fold (rowsAfter log pos).
      rewrite Hsplit. apply last_Some in Hlast as [b' ->].
      apply in_or_app. left. apply in_or_app. right. now left. }
    subst pos1. rewrite Hsplit. f_equal. unfold rowsAfter at 1.
    rewrite u64_small by (unfold UINT64_MOD, UINT64_MAX in *; lia).
    apply (rowsFrom_resume log (u64 (pos + 1)) batch tail l); try assumption.
    intros r Hr. destruct (Hnext r Hr) as [Hb | Hb];
      unfold lastTxn in Hb; rewrite Hlast in Hb; [ lia | exact Hb ].
  - apply last_None in Hlast. subst batch pos1. reflexivity.
Qed.

Lemma batchLoop_rows rows : forall (st : BatchState Payload),
  exists st' rest, batchLoop (map Value rows) st = Break st' rest.
Proof.
  intros st. destruct (batchLoop (map Value rows) st) as [st' rest | s] eqn:H.
  - now exists st', rest.
  - apply batchLoop_Return in H as [Hin _].
    apply in_map_iff in Hin as (r & Hr & _). discriminate.
Qed.

(** A first row below [suggestBytes] is always part of the batch. *)
Lemma gatherBinlogs_progress log (svr : SegmentMgr Payload) sid pos r tail :
  svr sid = Some (storeOfLog log) ->
  rowsAfter log pos = r :: tail ->
  u64 (opSizeOf r) < suggestBytes ->
  exists batch, gatherBinlogs svr sid pos = Done (Value (r :: batch)).
Proof.
  intros Hsvr Hrows Hsize. unfold gatherBinlogs. rewrite Hsvr. simpl.
  rewrite cursorFrom_rowsAfter, Hrows. simpl.
  assert (overThreshold (u32 (0 + 1)) (u64 (0 + opSizeOf r)) = false) as ->.
  { unfold overThreshold. apply orb_false_iff. split; [ reflexivity | ].
    rewrite Z.add_0_l, Z.geb_leb. apply Z.leb_gt. exact Hsize. }
  set (st1 := mkBatchState _ _ _ _).
  destruct (batchLoop_rows tail st1) as (st' & rest & Hloop). rewrite Hloop.
  apply batchLoop_Break in Hloop as (taken & -> & _).
  - now exists taken.
  - unfold tracksLast. subst st1. simpl. reflexivity.
Qed.

(** C9. Over a binlog in txnId order whose txnIds lie between 1 and
    2^64-2, and for every run of successive successful pushes: the frames
    written to the slave are the frames of the gathered batches, one write
    for each push; their payloads, followed by the encodings of the rows that
    the next cursor yields, are the encodings of the rows that the first
    cursor yielded, and so are the batches themselves: every row up to the
    position reached was sent once, in order. In particular the row at
    which a batch was closed, which the loop has taken from its cursor
    without sending it, is the first row of the next cursor. And when no row
    of the binlog reaches [suggestBytes] by itself, a push gathers an empty
    batch only when no row is left to send. *)
Theorem no_row_skipped_by_batch_closure log (svr : SegmentMgr Payload) sid dst :
  validBinlog log ->
  svr sid = Some (storeOfLog log) ->
  (forall client pos batches client' pos',
      pushRun svr sid dst client pos batches client' pos' ->
      (exists exchanged,
          history client' = history client ++ exchanged /\
          framesWritten exchanged = map (frameBinlogs dst) batches /\
          flat_map rawChunks (framesWritten exchanged) ++
            flat_map encodedPair (rowsAfter log pos') =
          flat_map encodedPair (rowsAfter log pos)) /\
      concat batches ++ rowsAfter log pos' = rowsAfter log pos) /\
  (forall pos st rest r tail,
      batchLoop (cursorFrom log (u64 (pos + 1))) batchInit = Break st rest ->
      rowsAfter log pos = binlogs st ++ r :: tail ->
      rest = map Value tail) /\
  (forall client pos batch pos1 client1 r tail,
      gatherBinlogs svr sid pos = Done (Value batch) ->
      masterSendBinlog svr client sid dst pos = Done (Value pos1, client1) ->
      rowsAfter log pos = batch ++ r :: tail ->
      rowsAfter log pos1 = r :: tail) /\
  (Forall (fun r => u64 (opSizeOf r) < suggestBytes) log ->
   forall pos,
     gatherBinlogs svr sid pos = Done (Value []) ->
     rowsAfter log pos = []).
Proof.
  intros Hvalid Hsvr.
  assert (Hrows : forall client pos batches client' pos',
             pushRun svr sid dst client pos batches client' pos' ->
             concat batches ++ rowsAfter log pos' = rowsAfter log pos).
  { intros client pos batches client' pos' Hrun.
    induction Hrun as [ | client pos batch client1 pos1 batches client2 pos2
                          Hgather Hsend _ IH ].
    - reflexivity.
    - simpl. rewrite <- app_assoc, IH. eapply push_once; eassumption. }
  assert (Hwire : forall client pos batches client' pos',
             pushRun svr sid dst client pos batches client' pos' ->
             exists exchanged,
               history client' = history client ++ exchanged /\
               framesWritten exchanged = map (frameBinlogs dst) batches).
  { intros client pos batches client' pos' Hrun.
    induction Hrun as [ | client pos batch client1 pos1 batches client2 pos2
                          Hgather Hsend _ (exchanged & Hh & Hframes) ].
    - exists []. rewrite app_nil_r. split; reflexivity.
    - destruct (masterSendBinlog_history _ _ _ _ _ _ _ _ Hgather Hsend)
        as [secs Hone].
      exists ([WriteData (frameBinlogs dst batch) secs;
               ReadLine secs (Value "+OK")] ++ exchanged).
      split.
      + rewrite Hh, Hone, <- app_assoc. reflexivity.
      + rewrite framesWritten_app, Hframes. reflexivity. }
  split; [ | split; [ | split ] ].
  - intros client pos batches client' pos' Hrun.
    split; [ | now apply (Hrows client pos batches client' pos') ].
    destruct (Hwire _ _ _ _ _ Hrun) as (exchanged & Hh & Hframes).
    exists exchanged. split; [ exact Hh | ]. split; [ exact Hframes | ].
    rewrite Hframes, frames_raw, <- flat_map_app.
    now rewrite (Hrows _ _ _ _ _ Hrun).
  - intros pos st rest r tail Hloop Hsplit.
    apply batchLoop_Break in Hloop as (taken & Hb & Hstop);
      [ | apply tracksLast_init ].
    simpl in Hb. rewrite Hb in *. clear Hb.
    rewrite cursorFrom_rowsAfter, Hsplit in Hstop.
    inversion Hstop as [ Hc Hr | s rest' Hcode Hc Hr | r' rest' Hbd Hc Hr ].
    + apply map_Value_inj in Hc. apply (f_equal (@length _)) in Hc.
      rewrite length_app in Hc. simpl in Hc. lia.
    + rewrite map_app in Hc. apply app_inv_head in Hc. discriminate.
    + rewrite map_app in Hc. apply app_inv_head in Hc. simpl in Hc.
      now injection Hc as _ ->.
  - intros client pos batch pos1 client1 r tail Hgather Hsend Hsplit.
    pose proof (push_once _ _ _ _ _ _ _ _ _ Hvalid Hsvr Hgather Hsend) as H.
    rewrite Hsplit in H. now apply app_inv_head in H.
  - intros Hsizes pos Hgather.
    destruct (rowsAfter log pos) as [ | r tail ] eqn:Hrows'; [ reflexivity | ].
    destruct (gatherBinlogs_progress log svr sid pos r tail Hsvr Hrows')
      as [batch Hbatch].
    + rewrite List.Forall_forall in Hsizes. apply Hsizes.
      apply (rowsFrom_In log (u64 (pos + 1))). fold (rowsAfter log pos).
      rewrite Hrows'. now left.
    + rewrite Hgather in Hbatch. discriminate.
Qed.

End Resumption.

Section Monotonic.

Context {Payload : Type} `{!ByteString Payload} `{!ReplLogCodec Payload}.
Implicit Types (svr : SegmentMgr Payload) (mgr : ReplManager Payload).
Implicit Types (e : MPovStatus Payload).

Lemma gatherBinlogs_store svr sid pos batch :
  gatherBinlogs svr sid pos = Done (Value batch) ->
  exists store txn, svr sid = Some store /\ createTransaction store = Value txn.
Proof.
  unfold gatherBinlogs. intros H.
  destruct (svr sid) as [store | ]; [ | discriminate ].
  destruct (createTransaction store) as [txn | s] eqn:Htxn; [ | discriminate ].
  exists store, txn. split; [ reflexivity | exact Htxn ].
Qed.

(** The position that a successful call returns is not below the one it
    was given. *)
Lemma masterSendBinlog_ge svr client sid dst pos newPos client' :
  cursorsHonourStart svr ->
  0 <= pos < UINT64_MAX ->
  masterSendBinlog svr client sid dst pos = Done (Value newPos, client') ->
  pos <= newPos < UINT64_MAX.
Proof.
  intros Hsvr Hpos H.
  apply masterSendBinlog_Value in H as (batch & Hgather & Hsend).
  apply sendBinlogs_Value in Hsend as [_ ->].
  destruct (last batch) as [l | ] eqn:Hlast; [ | lia ].
  destruct (gatherBinlogs_store _ _ _ _ Hgather) as (store & txn & Hstore & Htxn).
  destruct (gatherBinlogs_Value _ _ _ _ _ _ Hstore Htxn Hgather) as [rest Hstop].
  apply stopsAt_prefix in Hstop as [tail Hcur].
  assert (Hin : In (Value l) (createBinlogCursor txn (u64 (pos + 1)))).
  { rewrite Hcur. apply in_or_app. left. apply in_map.
    apply last_Some in Hlast as [b' ->]. apply in_or_app. right. now left. }
  apply (Hsvr _ _ _ _ _ Hstore Htxn) in Hin.
  rewrite u64_small in Hin by (unfold UINT64_MOD, UINT64_MAX in *; lia).
  lia.
Qed.

Lemma posAt_insert mgr sid cid e sid' cid' :
  posAt (setPushStatus mgr sid (<[cid := e]> (pushStatus mgr sid))) sid' cid' =
  if decide (sid = sid' /\ cid = cid') then Some (binlogPos e)
  else posAt mgr sid' cid'.
Proof.
  unfold posAt, setPushStatus. simpl.
  destruct (decide (sid = sid')) as [<- | Hs].
  - rewrite fn_lookup_insert. destruct (decide (cid = cid')) as [<- | Hc].
    + rewrite lookup_insert_eq. now rewrite decide_True.
    + rewrite lookup_insert_ne by easy. rewrite decide_False; [ easy | tauto ].
  - rewrite fn_lookup_insert_ne by easy. rewrite decide_False; [ easy | tauto ].
Qed.

Lemma posAt_delete mgr sid cid sid' cid' :
  posAt (setPushStatus mgr sid (delete cid (pushStatus mgr sid))) sid' cid' =
  if decide (sid = sid' /\ cid = cid') then None else posAt mgr sid' cid'.
Proof.
  unfold posAt, setPushStatus. simpl.
  destruct (decide (sid = sid')) as [<- | Hs].
  - rewrite fn_lookup_insert. destruct (decide (cid = cid')) as [<- | Hc].
    + rewrite lookup_delete_eq. now rewrite decide_True.
    + rewrite lookup_delete_ne by easy. rewrite decide_False; [ easy | tauto ].
  - rewrite fn_lookup_insert_ne by easy. rewrite decide_False; [ easy | tauto ].
Qed.

(** The scope guard touches no position and no key. *)
Lemma pushGuard_posAt mgr sid cid nextSched mgr' :
  pushGuard mgr sid cid nextSched = Done mgr' ->
  forall sid' cid', posAt mgr' sid' cid' = posAt mgr sid' cid'.
Proof.
  unfold pushGuard. intros H sid' cid'.
  destruct (pushStatus mgr sid !! cid) as [e | ] eqn:He.
  - destruct (isRunning e); [ | discriminate ]. injection H as <-.
    rewrite posAt_insert. case_decide as Hd; [ | reflexivity ].
    destruct Hd as [<- <-]. unfold posAt. now rewrite He.
  - now injection H as <-.
Qed.

(** One run of the push routine: it creates no entry, and an entry that it
    leaves in the table has a position not below the one it had. *)
Lemma masterPushRoutine_step svr now0 now1 mgr sid cid mgr' :
  cursorsHonourStart svr ->
  masterPushRoutine svr now0 now1 mgr sid cid = Done mgr' ->
  forall sid' cid' pos',
    posAt mgr' sid' cid' = Some pos' ->
    exists pos,
      posAt mgr sid' cid' = Some pos /\
      (0 <= pos < UINT64_MAX -> pos <= pos' < UINT64_MAX).
Proof.
  intros Hsvr H sid' cid' pos' Hpos'. unfold masterPushRoutine in H.
  destruct (pushStatus mgr sid !! cid) as [e | ] eqn:He.
  - destruct (masterSendBinlog _ _ _ _ _) as [ [[newPos | s] client'] | ] eqn:Hsend;
      [ | | discriminate ].
    + rewrite (pushGuard_posAt _ _ _ _ _ H), posAt_insert in Hpos'.
      case_decide as Hd.
      * destruct Hd as [<- <-]. injection Hpos' as <-. simpl.
        exists (binlogPos e). unfold posAt. rewrite He. split; [ easy | ].
        intros Hrange. eapply masterSendBinlog_ge; eassumption.
      * exists pos'. split; [ easy | lia ].
    + rewrite (pushGuard_posAt _ _ _ _ _ H), posAt_delete in Hpos'.
      case_decide; [ discriminate | ]. exists pos'. split; [ easy | lia ].
  - rewrite (pushGuard_posAt _ _ _ _ _ H) in Hpos'.
    exists pos'. split; [ easy | lia ].
Qed.

(** A registration keeps what is in the tables, provided the client id it
    draws is not in use. *)
Lemma registerIncrSync_posAt stoul INSTANCE_NUM now mgr conn
    (storeIdArg dstStoreIdArg binlogPosArg : string) sid cid pos :
  (forall sid', pushStatus mgr sid' !! clientIdGen mgr = None) ->
  posAt mgr sid cid = Some pos ->
  posAt (fst (registerIncrSync stoul INSTANCE_NUM now mgr mgr conn
                storeIdArg dstStoreIdArg binlogPosArg)) sid cid = Some pos.
Proof.
  intros Hfresh Hpos. unfold registerIncrSync.
  repeat match goal with
         | |- context [match ?x with _ => _ end] => destruct x; try exact Hpos
         end.
  cbn [fst]. unfold posAt in *. cbn [pushStatus].
  match goal with
  | |- context [<[?s := _]> (pushStatus mgr)] =>
      destruct (decide (s = sid)) as [-> | Hs]
  end.
  - rewrite fn_lookup_insert.
    destruct (decide (clientIdGen mgr = cid)) as [<- | Hc].
    + rewrite Hfresh in Hpos. discriminate.
    + now rewrite lookup_insert_ne.
  - now rewrite fn_lookup_insert_ne.
Qed.

Lemma mgrStep_posAt mgr mgr1 sid cid pos pos1 :
  mgrStep mgr mgr1 ->
  posAt mgr sid cid = Some pos ->
  posAt mgr1 sid cid = Some pos1 ->
  0 <= pos < UINT64_MAX ->
  pos <= pos1 < UINT64_MAX.
Proof.
  intros Hstep Hpos Hpos1 Hrange.
  destruct Hstep as [ svr now0 now1 sid0 cid0 mgr mgr' Hsvr Hpush
                    | stoul INSTANCE_NUM now conn a b c mgr Hfresh
                    | mgr mgr' Hsame ].
  - destruct (masterPushRoutine_step _ _ _ _ _ _ _ Hsvr Hpush _ _ _ Hpos1)
      as (pos0 & Hpos0 & Hle).
    rewrite Hpos in Hpos0. injection Hpos0 as <-. now apply Hle.
  - rewrite (registerIncrSync_posAt _ _ _ _ _ _ _ _ _ _ _ Hfresh Hpos) in Hpos1.
    injection Hpos1 as <-. lia.
  - rewrite Hsame, Hpos in Hpos1. injection Hpos1 as <-. lia.
Qed.

Lemma lifetime_posAt sid cid mgr mgr' :
  lifetime sid cid mgr mgr' ->
  forall pos pos',
    posAt mgr sid cid = Some pos ->
    posAt mgr' sid cid = Some pos' ->
    0 <= pos < UINT64_MAX ->
    pos <= pos' < UINT64_MAX.
Proof.
  induction 1 as [ mgr | mgr mgr1 mgr2 Hstep [e1 He1] _ IH ];
    intros pos pos' Hpos Hpos' Hrange.
  - rewrite Hpos in Hpos'. injection Hpos' as <-. lia.
  - assert (Hpos1 : posAt mgr1 sid cid = Some (binlogPos e1))
      by (unfold posAt; now rewrite He1).
    pose proof (mgrStep_posAt _ _ _ _ _ _ Hstep Hpos Hpos1 Hrange) as H1.
    specialize (IH _ _ Hpos1 Hpos' ltac:(lia)). lia.
Qed.

(** C7 (amended). Over the life of an entry, through runs of
    [masterPushRoutine], registrations of other replicas and steps of the
    scheduler, the [binlogPos] of the entry never decreases, provided it
    starts below the greatest [uint64_t] and the cursors yield no txnId
    below their start and none that reaches the greatest [uint64_t]. *)
Theorem binlogPos_never_decreases mgr mgr' sid cid e e' :
  lifetime sid cid mgr mgr' ->
  pushStatus mgr sid !! cid = Some e ->
  pushStatus mgr' sid !! cid = Some e' ->
  0 <= binlogPos e < UINT64_MAX ->
  binlogPos e <= binlogPos e'.
Proof.
  intros Hlife He He' Hrange.
  apply (lifetime_posAt _ _ _ _ Hlife (binlogPos e) (binlogPos e')).
  - unfold posAt. now rewrite He.
  - unfold posAt. now rewrite He'.
  - exact Hrange.
Qed.

End Monotonic.

Section Registration.

Context {Payload : Type}.
Variable stoul : string -> Thrown Z.
Variable INSTANCE_NUM : Z.
Implicit Types (mgr : ReplManager Payload) (conn : BlockingTcpClient Payload).

Lemma string_neb_true a b : string_neb a b = true -> a <> b.
Proof.
  unfold string_neb. intros H E. apply negb_true_iff in H.
  apply String.eqb_neq in H. contradiction.
Qed.

Lemma gtb_false a b : (a >? b) = false <-> a <= b.
Proof. rewrite Z.gtb_ltb, Z.ltb_ge. reflexivity. Qed.

Lemma gtb_true a b : (a >? b) = true <-> b < a.
Proof. rewrite Z.gtb_ltb, Z.ltb_lt. reflexivity. Qed.

Lemma geb_false a b : (a >=? b) = false <-> a < b.
Proof. rewrite Z.geb_leb, Z.leb_gt. reflexivity. Qed.

(** C6. [registerIncrSync] puts an entry into [pushStatus] of the store
    exactly when the conditions of registration hold; the entry is not
    running and carries the position asked for. When they do not hold the
    tables are left as they were; and when [firstBinlogId] of the store is
    above the position at the first check, the master's only word on the
    connection is [-ERR invalid binlogPos]. *)
Theorem registerIncrSync_registers_iff now mgr0 mgr1 conn
    (storeIdArg dstStoreIdArg binlogPosArg : string) :
  let res := registerIncrSync stoul INSTANCE_NUM now mgr0 mgr1 conn
               storeIdArg dstStoreIdArg binlogPosArg in
  (forall sid dst pos,
      registrationConditions stoul INSTANCE_NUM mgr0 mgr1 conn storeIdArg dstStoreIdArg
        binlogPosArg sid dst pos ->
      exists e,
        fst res = withEntry mgr1 sid e /\
        isRunning e = false /\ binlogPos e = pos /\
        dstStoreId e = u32 dst /\
        clientId e = clientIdGen mgr1 /\ client e = snd res) /\
  ((forall sid dst pos,
       ~ registrationConditions stoul INSTANCE_NUM mgr0 mgr1 conn storeIdArg dstStoreIdArg
           binlogPosArg sid dst pos) ->
   fst res = mgr1) /\
  (forall a b c,
      stoul storeIdArg = Returns a -> stoul dstStoreIdArg = Returns b ->
      stoul binlogPosArg = Returns c ->
      u64 a < INSTANCE_NUM -> u64 b < INSTANCE_NUM ->
      firstBinlogId mgr0 (u64 a) > u64 c ->
      fst res = mgr1 /\
      history (snd res) =
        history conn ++ [WriteLine "-ERR invalid binlogPos" 1]).
Proof.
  cbn zeta. unfold registerIncrSync, registrationConditions.
  destruct (stoul storeIdArg) as [a | w] eqn:Ha;
    [ | split; [ | split ]; [ intros ? ? ? ((? & ? & ? & ? & _) & _)
                            | reflexivity | intros ]; discriminate ].
  destruct (stoul dstStoreIdArg) as [b | w] eqn:Hb;
    [ | split; [ | split ]; [ intros ? ? ? ((? & ? & ? & _ & ? & _) & _)
                            | reflexivity | intros ]; discriminate ].
  destruct (stoul binlogPosArg) as [c | w] eqn:Hc;
    [ | split; [ | split ]; [ intros ? ? ? ((? & ? & ? & _ & _ & ? & _) & _)
                            | reflexivity | intros ]; discriminate ].
  assert (Hparsed : forall sid dst pos,
    (exists a' b' c', Returns a = Returns a' /\ Returns b = Returns b' /\
       Returns c = Returns c' /\ sid = u64 a' /\ dst = u64 b' /\ pos = u64 c') ->
    sid = u64 a /\ dst = u64 b /\ pos = u64 c).
  { intros sid dst pos (a' & b' & c' & [= <-] & [= <-] & [= <-] & H). exact H. }
  destruct (u64 a >=? INSTANCE_NUM) eqn:Hsid; simpl.
  { assert (u64 a >= INSTANCE_NUM) by (unfold Z.geb in Hsid;
      destruct (u64 a ?= INSTANCE_NUM) eqn:E; try discriminate;
      [ apply Z.compare_eq in E | apply Z.compare_gt_iff in E ]; lia).
    split; [ | split ]; [ | reflexivity | intros; simplify_eq; lia ].
    intros sid dst pos (Hp & Hlt & _). apply Hparsed in Hp as (-> & _). lia. }
  apply geb_false in Hsid.
  destruct (u64 b >=? INSTANCE_NUM) eqn:Hdst; simpl.
  { assert (u64 b >= INSTANCE_NUM) by (unfold Z.geb in Hdst;
      destruct (u64 b ?= INSTANCE_NUM) eqn:E; try discriminate;
      [ apply Z.compare_eq in E | apply Z.compare_gt_iff in E ]; lia).
    split; [ | split ]; [ | reflexivity | intros; simplify_eq; lia ].
    intros sid dst pos (Hp & _ & Hlt & _). apply Hparsed in Hp as (_ & -> & _). lia. }
  apply geb_false in Hdst.
  destruct (firstBinlogId mgr0 (u64 a) >? u64 c) eqn:Hfirst.
  { apply gtb_true in Hfirst.
    split; [ | split ]; [ | reflexivity | intros; simplify_eq; now split ].
    intros sid dst pos (Hp & _ & _ & Hle & _).
    apply Hparsed in Hp as (-> & _ & ->). lia. }
  apply gtb_false in Hfirst.
  unfold readLine, writeLine. cbn [snd fst history peer getRemoteRepr].
  destruct (answerRead (peer conn) (history conn ++ [WriteLine "+OK" 1]) 1)
    as [line | s] eqn:Hread.
  2:{ split; [ | split ]; [ | reflexivity | intros; simplify_eq; lia ].
      intros sid dst pos (_ & _ & _ & _ & _ & ?). discriminate. }
  destruct (string_neb line "+PONG") eqn:Hline.
  { apply string_neb_true in Hline.
    split; [ | split ]; [ | reflexivity | intros; simplify_eq; lia ].
    intros sid dst pos (_ & _ & _ & _ & _ & ?). congruence. }
  apply string_neb_false in Hline. subst line.
  destruct (firstBinlogId mgr1 (u64 a) >? u64 c) eqn:Hsecond.
  { apply gtb_true in Hsecond.
    split; [ | split ]; [ | reflexivity | intros; simplify_eq; lia ].
    intros sid dst pos (Hp & _ & _ & _ & Hle & _).
    apply Hparsed in Hp as (-> & _ & ->). lia. }
  apply gtb_false in Hsecond.
  split; [ | split ].
  - intros sid dst pos (Hp & _). apply Hparsed in Hp as (-> & -> & ->).
    eexists. cbn [fst snd]. split; [ reflexivity | ]. cbn. now repeat split.
  - intros Hnot. exfalso. apply (Hnot (u64 a) (u64 b) (u64 c)).
    split; [ now exists a, b, c | now repeat split ].
  - intros; simplify_eq; lia.
Qed.

End Registration.

Section FullSync.

Context {Payload : Type}.
Implicit Types (w : SyncState Payload) (fsys : FileSys Payload).
Implicit Types (tr : list (Action Payload)).

Lemma extends_refl w : extends w w.
Proof. exists []. now rewrite app_nil_r. Qed.

Lemma extends_trans w1 w2 w3 : extends w1 w2 -> extends w2 w3 -> extends w1 w3.
Proof.
  intros (tr1 & H1 & F1) (tr2 & H2 & F2). exists (tr1 ++ tr2).
  rewrite H2, H1, app_assoc. split; [ reflexivity | now apply Forall_app ].
Qed.

Lemma extends_one w w' a :
  syncTrace w' = syncTrace w ++ [a] -> streaming a -> extends w w'.
Proof. intros H Ha. exists [a]. split; [ exact H | now repeat constructor ]. Qed.

Lemma extends_syncWriteLine w line secs :
  extends w (snd (syncWriteLine w line secs)).
Proof. now apply (extends_one _ _ (ActNet (WriteLine line secs))). Qed.

Lemma extends_syncWriteData w data secs :
  extends w (snd (syncWriteData w data secs)).
Proof. now apply (extends_one _ _ (ActNet (WriteData data secs))). Qed.

Lemma extends_syncReadLine w secs : extends w (snd (syncReadLine w secs)).
Proof. now eapply extends_one. Qed.

Lemma extends_act w a : streaming a -> extends w (act w a).
Proof. now apply extends_one. Qed.

Create HintDb fullsync.
#[local] Hint Resolve extends_refl extends_syncWriteLine extends_syncWriteData
  extends_syncReadLine extends_act : fullsync.

#[local] Arguments syncWriteLine : simpl never.
#[local] Arguments syncWriteData : simpl never.
#[local] Arguments syncReadLine : simpl never.
#[local] Arguments act : simpl never.

Lemma streamFile_extends fuel fsys fname : forall offset remain w flow w',
  streamFile fuel fsys fname offset remain w = Some (flow, w') -> extends w w'.
Proof.
  induction fuel as [ | fuel IH ]; intros offset remain w flow w' H;
    cbn [streamFile] in H;
    (destruct (remain =? 0);
     [ injection H as <- <-; auto with fullsync | try discriminate ]).
  set (w1 := act w _) in H.
  assert (H1 : extends w w1) by now apply extends_act.
  destruct (read fsys fname offset _) as [readBuf | ].
  - pose proof (extends_syncWriteData w1 [Raw readBuf] 1) as H2.
    destruct (syncWriteData w1 [Raw readBuf] 1) as [s w2]. simpl in H2.
    destruct (negb (Status_ok s)).
    + injection H as <- <-. eapply extends_trans; eassumption.
    + apply IH in H. eauto using extends_trans.
  - now injection H as <- <-.
Qed.

(** The loop over the chunks of a file ends within its fuel. *)
Lemma streamFile_total fuel fsys fname : forall offset remain w,
  0 <= remain < UINT64_MOD ->
  (Z.to_nat (remain / readBufCapacity) < fuel)%nat ->
  is_Some (streamFile fuel fsys fname offset remain w).
Proof.
  induction fuel as [ | fuel IH ]; intros offset remain w Hr Hfuel; [ lia | ].
  cbn [streamFile].
  destruct (Z.eqb_spec remain 0) as [ | Hnz ]; [ now eexists | ].
  destruct (read fsys fname offset _) as [readBuf | ]; [ | now eexists ].
  destruct (syncWriteData _ _ _) as [s w2].
  destruct (negb (Status_ok s)); [ now eexists | ].
  assert (Hcap : readBufCapacity = 20971520) by reflexivity.
  destruct (Z.le_gt_cases remain readBufCapacity) as [Hle | Hgt].
  - rewrite Z.min_l, Z.sub_diag by lia. unfold u64. rewrite Z.mod_0_l by easy.
    destruct fuel; cbn [streamFile]; now eexists.
  - rewrite Z.min_r by lia.
    rewrite u64_small by (unfold UINT64_MOD in *; lia).
    apply IH; [ unfold UINT64_MOD in *; lia | ].
    replace remain with ((remain - readBufCapacity) + 1 * readBufCapacity)
      in Hfuel by lia.
    rewrite Z.div_add in Hfuel by lia.
    assert (0 <= (remain - readBufCapacity) / readBufCapacity)
      by (apply Z.div_pos; lia).
    lia.
Qed.

Lemma streamFiles_extends fsys dir files : forall w flow w',
  streamFiles fsys dir files w = Some (flow, w') -> extends w w'.
Proof.
  induction files as [ | fileInfo files IH ]; intros w flow w' H;
    cbn [streamFiles] in H.
  - injection H as <- <-. auto with fullsync.
  - pose proof (extends_syncWriteLine w (fst fileInfo) 1) as H1.
    destruct (syncWriteLine w (fst fileInfo) 1) as [s w1]. simpl in H1.
    destruct (negb (Status_ok s)); [ now injection H as <- <- | ].
    set (w2 := act w1 _) in H.
    assert (H2 : extends w w2)
      by (eapply extends_trans; [ exact H1 | now apply extends_act ]).
    destruct (negb (is_open fsys _)); [ now injection H as <- <- | ].
    destruct (streamFile _ _ _ _ _ _) as [ [[ | ] w3] | ] eqn:Hfile;
      [ | | discriminate ]; apply streamFile_extends in Hfile.
    + apply IH in H. eauto using extends_trans.
    + injection H as <- <-. eauto using extends_trans.
Qed.

Lemma streamFiles_total fsys dir files : forall w,
  is_Some (streamFiles fsys dir files w).
Proof.
  induction files as [ | fileInfo files IH ]; intros w; cbn [streamFiles];
    [ now eexists | ].
  destruct (syncWriteLine w (fst fileInfo) 1) as [s w1].
  destruct (negb (Status_ok s)); [ now eexists | ].
  destruct (negb (is_open fsys _)); [ now eexists | ].
  edestruct (streamFile_total (streamFuel (u64 (snd fileInfo))) fsys
               (dir +:+ "/" +:+ fst fileInfo) 0 (u64 (snd fileInfo)))
    as [[flow w3] ->].
  - apply Z.mod_pos_bound. reflexivity.
  - unfold streamFuel. lia.
  - destruct flow; [ apply IH | now eexists ].
Qed.

Lemma fullSyncBody_runs fsys store bkInfo w :
  exists w', fullSyncBody fsys store bkInfo w = Some w' /\ extends w w'.
Proof.
  unfold fullSyncBody.
  pose proof (extends_syncWriteLine w (manifestJson (getFileList bkInfo)) 1) as H1.
  destruct (syncWriteLine w _ 1) as [s w1]. simpl in H1.
  destruct (negb (Status_ok s)); [ now exists w1 | ].
  destruct (streamFiles_total fsys (backupDir store) (getFileList bkInfo) w1)
    as [[flow w2] Hfiles].
  rewrite Hfiles. apply streamFiles_extends in Hfiles.
  destruct flow.
  - eexists. split; [ reflexivity | ].
    eauto using extends_trans, extends_syncReadLine.
  - exists w2. eauto using extends_trans.
Qed.

(** C8. For a running store: once [backup()] has succeeded the routine
    ends, whatever the slave and the file system do, and its trace is the
    backup, then streaming actions only, then [releaseBackup()] as the last
    action; when [backup()] fails the routine writes [-ERR backup failed:]
    with the message and does nothing else. *)
Theorem backup_released_on_every_exit (svr : SegmentMgr Payload) fsys
    (conn : BlockingTcpClient Payload) sid store :
  svr sid = Some store ->
  Store_isRunning store = true ->
  (forall bkInfo,
      backup store = Value bkInfo ->
      exists w tr,
        supplyFullSyncRoutine svr fsys conn sid = Some (Done w) /\
        syncTrace w = ActBackup :: tr ++ [ActReleaseBackup] /\
        Forall streaming tr) /\
  (forall st,
      backup store = Failed st ->
      exists w,
        supplyFullSyncRoutine svr fsys conn sid = Some (Done w) /\
        syncTrace w =
          [ActBackup;
           ActNet (WriteLine ("-ERR backup failed:" +:+ toString st) 1)]).
Proof.
  intros Hstore Hrun. unfold supplyFullSyncRoutine. rewrite Hstore, Hrun.
  split.
  - intros bkInfo ->. simpl.
    destruct (fullSyncBody_runs fsys store bkInfo
                (act (mkSyncState conn []) ActBackup))
      as (w' & -> & tr & Htr & Hall).
    exists (act w' ActReleaseBackup), tr. split; [ reflexivity | ].
    split; [ | exact Hall ]. simpl. now rewrite Htr.
  - intros st ->. simpl. eexists. split; reflexivity.
Qed.

End FullSync.

(** * The scenarios of the specification *)

(** C1 (amended). Scenario C: seventy transactions of one row each, replica
    at position 0. Every successful first call of [masterSendBinlog] has
    gathered exactly 63 rows, those of transactions 1 to 63, and returns
    position 63: the 64th row read brings the count to [suggestBatch],
    starts a transaction, and closes the batch without being part of it. *)
Theorem scenarioC_first_batch (conn : BlockingTcpClient Bytes) dst newPos conn' :
  masterSendBinlog (oneStore logC) conn 0 dst 0 = Done (Value newPos, conn') ->
  exists batch,
    gatherBinlogs (oneStore logC) 0 0 = Done (Value batch) /\
    length batch = 63%nat /\
    map txnIdOf batch = map Z.of_nat (seq 1 63) /\
    newPos = 63.
Proof.
  intros H. apply masterSendBinlog_Value in H as (batch & Hgather & Hsend).
  apply sendBinlogs_Value in Hsend as [_ Hpos].
  exists batch. split; [ exact Hgather | ].
  vm_compute in Hgather. injection Hgather as <-.
  split; [ | split ]; [ reflexivity | reflexivity | ].
  subst newPos. reflexivity.
Qed.

Lemma scenarioC_first_batch_witness :
  masterSendBinlog (oneStore logC) okClient 0 0 0 =
    Done (Value 63,
          mkClient "slave" okPeer
            [WriteData (frameBinlogs 0 (take 63 logC)) 1;
             ReadLine 1 (Value "+OK")]) /\
  exists batch,
    gatherBinlogs (oneStore logC) 0 0 = Done (Value batch) /\
    length batch = 63%nat /\
    map txnIdOf batch = map Z.of_nat (seq 1 63) /\
    63 = 63.
Proof.
  split; [ vm_compute; reflexivity | ].
  apply (scenarioC_first_batch okClient 0 63
           (mkClient "slave" okPeer
              [WriteData (frameBinlogs 0 (take 63 logC)) 1;
               ReadLine 1 (Value "+OK")])).
  vm_compute; reflexivity.
Defined.

(** C1, as stated, fails: no first push of scenario C gathers 64 rows and
    returns position 64. *)
Lemma scenarioC_batch_is_not_64_rows :
  ~ exists batch conn',
      gatherBinlogs (oneStore logC) 0 0 = Done (Value batch) /\
      length batch = 64%nat /\
      masterSendBinlog (oneStore logC) okClient 0 0 0 = Done (Value 64, conn').
Proof.
  intros (batch & conn' & Hgather & Hlen & _).
  vm_compute in Hgather. injection Hgather as <-. discriminate Hlen.
Qed.

(** C2. The timeout that [masterSendBinlog] computes is 1 second for a
    payload of at most 1 MiB and 2 seconds for every payload above 1 MiB,
    also above 10 MiB: the test for 10 MiB stands behind the test for
    1 MiB and is never reached. Scenario D: the batch of 30 MiB is written,
    and its answer awaited, with a timeout of 2 seconds, not 4. *)
Theorem write_timeout_of_large_batch_is_two :
  (forall size, size <= 1 * MiB -> writeTimeoutSecs size = 1) /\
  (forall size, 1 * MiB < size -> writeTimeoutSecs size = 2) /\
  30 * MiB < wireSize (frameBinlogs 0 logD) /\
  masterSendBinlog (oneStore logD) okClient 0 0 4 =
    Done (Value 5,
          mkClient "slave" okPeer
            [WriteData (frameBinlogs 0 logD) 2; ReadLine 2 (Value "+OK")]).
Proof.
  split; [ | split; [ | split ] ].
  - intros size Hsize. unfold writeTimeoutSecs, MiB in *.
    destruct (Z.gtb_spec size (1024 * 1024)) as [ Hgt | _ ]; [ lia | ].
    destruct (Z.gtb_spec size (1024 * 1024 * 10)) as [ Hgt | _ ];
      [ lia | reflexivity ].
  - intros size Hsize. unfold writeTimeoutSecs, MiB in *.
    destruct (Z.gtb_spec size (1024 * 1024)) as [ _ | Hle ];
      [ reflexivity | lia ].
  - vm_compute. reflexivity.
  - vm_compute. reflexivity.
Qed.

(** C3, as stated, fails. A single transaction whose first row alone
    reaches [suggestBytes] is not sent whole: the batch is empty and the
    position does not move. And two rows that share txnId 0 are divided. *)
Lemma oversize_first_row_is_withheld :
  gatherBinlogs (oneStore logBig) 0 4 = Done (Value []) /\
  gatherBinlogs (oneStore logBig) 0 4 <> Done (Value logBig) /\
  (exists conn',
      masterSendBinlog (oneStore logBig) okClient 0 0 4 = Done (Value 4, conn')) /\
  gatherBinlogs (oneStore logZero) 0 UINT64_MAX =
    Done (Value [row 0 (Blob (10 * MiB))]).
Proof.
  split; [ vm_compute; reflexivity | ].
  split; [ vm_compute; discriminate | ].
  split; [ eexists; vm_compute; reflexivity | vm_compute; reflexivity ].
Qed.

Lemma batch_never_splits_a_transaction_witness :
  nonzeroTxnIds (cursorFrom logD (u64 (4 + 1))) /\
  gatherBinlogs (oneStore logD) 0 4 = Done (Value logD).
Proof.
  assert (Hnz : nonzeroTxnIds (cursorFrom logD (u64 (4 + 1)))).
  { intros r [[= <-] | [[= <-] | [[= <-] | []]]]; vm_compute; discriminate. }
  split; [ exact Hnz | ].
  apply (proj2 (batch_never_splits_a_transaction (oneStore logD) 0 4
                  (storeOfLog logD) (mkTransaction (cursorFrom logD))
                  eq_refl eq_refl Hnz)
           (row 5 (Blob (10 * MiB)))
           [row 5 (Blob (10 * MiB)); row 5 (Blob (10 * MiB))]).
  - reflexivity.
  - repeat constructor.
  - vm_compute. reflexivity.
Defined.

(** C4. Scenario A: the slave has registered with [INCRSYNC 0 0 9] and the
    store holds two rows of transaction 10 and one of transaction 11. One
    run of the push routine reads from position 10, sends one multi-bulk
    frame of eight bulks, [applybinlogs], the store id and the three rows,
    reads the slave's [+OK], and leaves the entry at position 11. *)
Theorem scenarioA_steady_state_push now0 now1 :
  posAt (registered 0 "9") 0 0 = Some 9 /\
  gatherBinlogs (oneStore logA) 0 9 = Done (Value logA) /\
  frameBinlogs 0 logA =
    [Text ("*8" +:+ CRLF);
     Text ("$12" +:+ CRLF); Text "applybinlogs"; Text CRLF;
     Text ("$1" +:+ CRLF); Text "0"; Text CRLF;
     Text ("$2" +:+ CRLF); Raw (Lit "10"); Text CRLF;
     Text ("$1" +:+ CRLF); Raw (Lit "a"); Text CRLF;
     Text ("$2" +:+ CRLF); Raw (Lit "10"); Text CRLF;
     Text ("$1" +:+ CRLF); Raw (Lit "b"); Text CRLF;
     Text ("$2" +:+ CRLF); Raw (Lit "11"); Text CRLF;
     Text ("$1" +:+ CRLF); Raw (Lit "c"); Text CRLF] /\
  exists mgr' e,
    masterPushRoutine (oneStore logA) now0 now1 (registered 0 "9") 0 0 =
      Done mgr' /\
    pushStatus mgr' 0 !! 0 = Some e /\
    binlogPos e = 11 /\
    isRunning e = false /\
    history (client e) =
      [WriteLine "+OK" 1; ReadLine 1 (Value "+PONG");
       WriteData (frameBinlogs 0 logA) 1; ReadLine 1 (Value "+OK")].
Proof.
  split; [ vm_compute; reflexivity | ].
  split; [ vm_compute; reflexivity | ].
  split; [ vm_compute; reflexivity | ].
  eexists. eexists.
  split; [ vm_compute; reflexivity | ].
  split; [ vm_compute; reflexivity | ].
  repeat split.
Qed.


(** A replica that is up to date: the cursor is exhausted at the first
    read, the frame of the empty batch goes out all the same, and the
    position stays where it was. *)
Example heartbeat_of_an_empty_batch :
  masterSendBinlog (oneStore logA) okClient 0 0 11 =
    Done (Value 11,
          mkClient "slave" okPeer
            [WriteData [Text ("*2" +:+ CRLF);
                        Text ("$12" +:+ CRLF); Text "applybinlogs"; Text CRLF;
                        Text ("$1" +:+ CRLF); Text "0"; Text CRLF] 1;
             ReadLine 1 (Value "+OK")]).
Proof. vm_compute. reflexivity. Qed.

Lemma registerIncrSync_registers_iff_witness :
  (* scenario B: the log was truncated past the position asked for *)
  (fst (registerIncrSync stoulDec 10 0 (emptyMgr 100) (emptyMgr 100)
          slaveClient "0" "0" "50") = emptyMgr 100 /\
   history (snd (registerIncrSync stoulDec 10 0 (emptyMgr 100) (emptyMgr 100)
                   slaveClient "0" "0" "50")) =
     [WriteLine "-ERR invalid binlogPos" 1]) /\
  (* scenario A: the handshake completes *)
  (exists e,
      fst (registerIncrSync stoulDec 10 0 (emptyMgr 0) (emptyMgr 0)
             slaveClient "0" "0" "9") = withEntry (emptyMgr 0) 0 e /\
      isRunning e = false /\ binlogPos e = 9).
Proof.
  split.
  - apply (proj2 (proj2 (registerIncrSync_registers_iff stoulDec 10 0
                           (emptyMgr 100) (emptyMgr 100) slaveClient
                           "0" "0" "50")) 0 0 50);
      try reflexivity.
  - destruct (proj1 (registerIncrSync_registers_iff stoulDec 10 0
                       (emptyMgr 0) (emptyMgr 0) slaveClient "0" "0" "9")
                0 0 9) as (e & He & Hrun & Hpos & _).
    + split; [ exists 0, 0, 9; repeat split | repeat split ];
        try reflexivity; vm_compute; discriminate.
    + exists e. now repeat split.
Defined.

(** C7, as stated, fails. A slave may register with the greatest
    [uint64_t] as its position; the cursor of the next push then starts at
    the wrapped position 0, and the push moves the entry back to the txnId
    of the row it sent. *)
Lemma binlogPos_decreases_after_wrap :
  posAt (registered 0 "18446744073709551615") 0 0 = Some UINT64_MAX /\
  exists mgr',
    masterPushRoutine (oneStore [row 1 (Lit "a")]) 0 0
      (registered 0 "18446744073709551615") 0 0 = Done mgr' /\
    posAt mgr' 0 0 = Some 1.
Proof.
  split; [ vm_compute; reflexivity | ].
  eexists. split; vm_compute; reflexivity.
Qed.

Lemma oneStore_honours log :
  Forall (fun r => txnIdOf r < UINT64_MAX) log ->
  cursorsHonourStart (oneStore log).
Proof.
  intros Hlog sid store txn fromId r Hstore Htxn Hin.
  unfold oneStore in Hstore. destruct (sid =? 0); [ | discriminate ].
  injection Hstore as <-. injection Htxn as <-. simpl in Hin.
  apply in_map_iff in Hin as (x & [= ->] & Hx).
  apply filter_In in Hx as [Hx Hle]. apply Z.leb_le in Hle.
  rewrite List.Forall_forall in Hlog. specialize (Hlog _ Hx). lia.
Qed.

Lemma binlogPos_never_decreases_witness :
  exists e e',
    pushStatus (registered 0 "9") 0 !! 0 = Some e /\
    pushStatus pushedA 0 !! 0 = Some e' /\
    0 <= binlogPos e < UINT64_MAX /\
    binlogPos e <= binlogPos e'.
Proof.
  eexists. eexists.
  split; [ vm_compute; reflexivity | ].
  split; [ vm_compute; reflexivity | ].
  split; [ vm_compute; split; [ discriminate | reflexivity ] | ].
  eapply (binlogPos_never_decreases (registered 0 "9") pushedA 0 0).
  - eapply lifetime_step; [ | | apply lifetime_refl ].
    + apply (step_push (oneStore logA) 0 1 0 0).
      * apply oneStore_honours. repeat constructor.
      * vm_compute. reflexivity.
    + eexists. vm_compute. reflexivity.
  - vm_compute. reflexivity.
  - vm_compute. reflexivity.
  - vm_compute. split; [ discriminate | reflexivity ].
Defined.

Lemma backup_released_on_every_exit_witness :
  (fun _ : Z => Some storeE) 0 = Some storeE /\
  Store_isRunning storeE = true /\
  backup storeE = Value backupE /\
  exists w tr,
    supplyFullSyncRoutine (fun _ => Some storeE) fsysE okClient 0 =
      Some (Done w) /\
    syncTrace w = ActBackup :: tr ++ [ActReleaseBackup] /\
    Forall streaming tr.
Proof.
  split; [ reflexivity | ]. split; [ reflexivity | ]. split; [ reflexivity | ].
  apply (proj1 (backup_released_on_every_exit (fun _ => Some storeE) fsysE
                  okClient 0 storeE eq_refl eq_refl) backupE).
  reflexivity.
Defined.

(** Scenario E, the whole trace: manifest, each file by name and content,
    the slave's last line, and the release of the backup. *)
Example scenarioE_full_sync :
  option_map
    (fun o => match o with Done w => syncTrace w | Aborted => [] end)
    (supplyFullSyncRoutine (fun _ => Some storeE) fsysE okClient 0) =
  Some [ActBackup;
        ActNet (WriteLine (manifestJson (getFileList backupE)) 1);
        ActNet (WriteLine "000001.sst" 1); ActOpen "bk/000001.sst";
        ActRead "bk/000001.sst" 0 4096;
        ActNet (WriteData [Raw (Blob 4096)] 1);
        ActNet (WriteLine "MANIFEST" 1); ActOpen "bk/MANIFEST";
        ActRead "bk/MANIFEST" 0 12;
        ActNet (WriteData [Raw (Blob 12)] 1);
        ActNet (ReadLine 1 (Value "+OK"));
        ActReleaseBackup].
Proof. vm_compute. reflexivity. Qed.

(** The same store and a connection that fails at the first write: the
    routine returns after the manifest line, and the backup is released. *)
Example full_sync_manifest_write_fails :
  option_map
    (fun o => match o with Done w => syncTrace w | Aborted => [] end)
    (supplyFullSyncRoutine (fun _ => Some storeE) fsysE deafClient 0) =
  Some [ActBackup;
        ActNet (WriteLine (manifestJson (getFileList backupE)) 1);
        ActReleaseBackup].
Proof. vm_compute. reflexivity. Qed.

(** A file that does not open: the routine returns, and the backup is
    released. *)
Example full_sync_file_does_not_open :
  option_map
    (fun o => match o with Done w => syncTrace w | Aborted => [] end)
    (supplyFullSyncRoutine (fun _ => Some storeE)
       (mkFileSys (fun _ => false) (fun _ _ _ => None)) okClient 0) =
  Some [ActBackup;
        ActNet (WriteLine (manifestJson (getFileList backupE)) 1);
        ActNet (WriteLine "000001.sst" 1); ActOpen "bk/000001.sst";
        ActReleaseBackup].
Proof. vm_compute. reflexivity. Qed.

Lemma validBinlog_logC : validBinlog logC.
Proof.
  split.
  - apply (bool_decide_eq_true_1 _). vm_compute. reflexivity.
  - apply (bool_decide_eq_true_1 _). vm_compute. reflexivity.
Defined.

(** Once the position is 0, the pushes over the two rows of txnId 0
    gather nothing and stay there. *)
Lemma pushRun_logZero_idle conn pos batches conn' pos' :
  pushRun (oneStore logZero) 0 0 conn pos batches conn' pos' ->
  pos = 0 ->
  concat batches = [] /\ pos' = 0.
Proof.
  induction 1 as [ | conn pos batch conn1 pos1 batches conn2 pos2
                     Hgather Hsend _ IH ]; intros ->.
  - split; reflexivity.
  - vm_compute in Hgather. injection Hgather as <-.
    apply masterSendBinlog_Value in Hsend as (batch & Hgather & Hsend).
    vm_compute in Hgather. injection Hgather as <-.
    apply sendBinlogs_Value in Hsend as [_ ->]. simpl. now apply IH.
Qed.

(** C9, as stated, fails. A slave may register with the greatest
    [uint64_t] as its position; the cursor of the next push then starts at 0
    and yields the two rows of txnId 0. The first row is sent; the second
    closes the batch at the byte threshold and is left out, and the position
    returned is 0: the next cursor starts at 1 and does not yield it again.
    Whatever the run of successful pushes, it sends one of the two rows. *)
Lemma closing_row_is_never_read_again :
  posAt (registered 0 "18446744073709551615") 0 0 = Some UINT64_MAX /\
  rowsAfter logZero UINT64_MAX = logZero /\
  masterSendBinlog (oneStore logZero) okClient 0 0 UINT64_MAX =
    Done (Value 0,
          mkClient "slave" okPeer
            [WriteData (frameBinlogs 0 [row 0 (Blob (10 * MiB))]) 2;
             ReadLine 2 (Value "+OK")]) /\
  rowsAfter logZero 0 = [] /\
  forall conn batches conn' pos',
    pushRun (oneStore logZero) 0 0 conn UINT64_MAX batches conn' pos' ->
    batches <> [] ->
    concat batches = [row 0 (Blob (10 * MiB))] /\ pos' = 0 /\
    concat batches ++ rowsAfter logZero pos' <> rowsAfter logZero UINT64_MAX.
Proof.
  split; [ vm_compute; reflexivity | ]. split; [ reflexivity | ].
  split; [ vm_compute; reflexivity | ]. split; [ reflexivity | ].
  intros conn batches conn' pos' Hrun Hne.
  inversion Hrun as [ | c p batch conn1 pos1 rest c2 p2 Hgather Hsend Hrest ];
    subst; [ congruence | ].
  vm_compute in Hgather. injection Hgather as <-.
  apply masterSendBinlog_Value in Hsend as (batch & Hgather & Hsend).
  vm_compute in Hgather. injection Hgather as <-.
  apply sendBinlogs_Value in Hsend as [_ ->]. simpl in Hrest.
  destruct (pushRun_logZero_idle _ _ _ _ _ Hrest eq_refl) as [Hnone ->].
  cbn [concat]. rewrite Hnone. split; [ reflexivity | ].
  split; [ reflexivity | ]. vm_compute. discriminate.
Qed.

(** The two other ways to lose the property. A row with the greatest txnId
    takes the position to 2^64-1, the next cursor starts at 0, and the row
    goes out again with every push. *)
Example row_with_greatest_txnId_is_sent_again :
  gatherBinlogs (oneStore [row UINT64_MAX (Lit "a")]) 0 0 =
    Done (Value [row UINT64_MAX (Lit "a")]) /\
  masterSendBinlog (oneStore [row UINT64_MAX (Lit "a")]) okClient 0 0 0 =
    Done (Value UINT64_MAX,
          mkClient "slave" okPeer
            [WriteData (frameBinlogs 0 [row UINT64_MAX (Lit "a")]) 1;
             ReadLine 1 (Value "+OK")]) /\
  gatherBinlogs (oneStore [row UINT64_MAX (Lit "a")]) 0 UINT64_MAX =
    Done (Value [row UINT64_MAX (Lit "a")]).
Proof. repeat split; vm_compute; reflexivity. Qed.

(** A first row that reaches [suggestBytes] by itself closes an empty
    batch: the push succeeds, the position stays, and the rows are never
    sent. *)
Example oversize_row_stalls_the_replica :
  rowsAfter logBig 4 = logBig /\
  gatherBinlogs (oneStore logBig) 0 4 = Done (Value []) /\
  masterSendBinlog (oneStore logBig) okClient 0 0 4 =
    Done (Value 4,
          mkClient "slave" okPeer
            [WriteData (frameBinlogs 0 []) 1; ReadLine 1 (Value "+OK")]).
Proof. repeat split; vm_compute; reflexivity. Qed.

Lemma no_row_skipped_by_batch_closure_witness :
  validBinlog logC /\
  oneStore logC 0 = Some (storeOfLog logC) /\
  pushRun (oneStore logC) 0 0 okClient 0 [take 63 logC; drop 63 logC]
    (mkClient "slave" okPeer
       [WriteData (frameBinlogs 0 (take 63 logC)) 1; ReadLine 1 (Value "+OK");
        WriteData (frameBinlogs 0 (drop 63 logC)) 1; ReadLine 1 (Value "+OK")])
    70 /\
  (exists exchanged,
      [WriteData (frameBinlogs 0 (take 63 logC)) 1; ReadLine 1 (Value "+OK");
       WriteData (frameBinlogs 0 (drop 63 logC)) 1; ReadLine 1 (Value "+OK")] =
        [] ++ exchanged /\
      framesWritten exchanged =
        map (frameBinlogs 0) [take 63 logC; drop 63 logC] /\
      flat_map rawChunks (framesWritten exchanged) ++
        flat_map encodedPair (rowsAfter logC 70) =
      flat_map encodedPair (rowsAfter logC 0)) /\
  concat [take 63 logC; drop 63 logC] ++ rowsAfter logC 70 = rowsAfter logC 0 /\
  rowsAfter logC 63 = drop 63 logC.
Proof.
  assert (Hrun : pushRun (oneStore logC) 0 0 okClient 0
                   [take 63 logC; drop 63 logC]
                   (mkClient "slave" okPeer
                      [WriteData (frameBinlogs 0 (take 63 logC)) 1;
                       ReadLine 1 (Value "+OK");
                       WriteData (frameBinlogs 0 (drop 63 logC)) 1;
                       ReadLine 1 (Value "+OK")]) 70).
  { eapply pushRun_cons; [ vm_compute; reflexivity | vm_compute; reflexivity | ].
    eapply pushRun_cons; [ vm_compute; reflexivity | vm_compute; reflexivity | ].
    apply pushRun_nil. }
  split; [ exact validBinlog_logC | ]. split; [ reflexivity | ].
  split; [ exact Hrun | ].
  destruct (no_row_skipped_by_batch_closure logC (oneStore logC) 0 0
              validBinlog_logC eq_refl) as (Hall & _ & Hnext & _).
  destruct (Hall _ _ _ _ _ Hrun) as [Hwire Hrows].
  split; [ exact Hwire | ]. split; [ exact Hrows | ].
  apply (Hnext okClient 0 (take 63 logC) 63
           (mkClient "slave" okPeer
              [WriteData (frameBinlogs 0 (take 63 logC)) 1;
               ReadLine 1 (Value "+OK")])
           (row 64 (Lit "x")) (drop 64 logC));
    vm_compute; reflexivity.
Defined.

(** C10. A row whose txnId is 0 is always taken to start a transaction,
    also when the row pushed before it had txnId 0: of two rows that share
    txnId 0 and together pass [suggestBytes], the loop keeps the first and
    closes the batch at the second. When no txnId is 0 the row that follows
    a batch never shares the txnId of its last row. *)
Theorem txnId_zero_is_a_sentinel :
  (forall (Payload : Type) (size : ByteString Payload)
          (st : BatchState Payload) (r : ReplLog Payload),
      txnIdOf r = 0 -> startsTxn st r = true) /\
  (exists st,
      batchLoop (map Value logZero) batchInit = Break st [] /\
      binlogs st = [row 0 (Blob (10 * MiB))] /\
      nowId st = 0) /\
  (forall (Payload : Type) (size : ByteString Payload)
          (cursor : BinlogCursor Payload) st rest r tail l,
      nonzeroTxnIds cursor ->
      batchLoop cursor batchInit = Break st rest ->
      cursor = map Value (binlogs st) ++ Value r :: tail ->
      last (binlogs st) = Some l ->
      txnIdOf l <> txnIdOf r).
Proof.
  split; [ | split ].
  - intros Payload size st r Hr. unfold startsTxn. rewrite Hr.
    destruct (nowId st =? 0); reflexivity.
  - eexists. split; [ vm_compute; reflexivity | split; reflexivity ].
  - intros Payload size cursor st rest r tail l Hnz Hloop Hcur Hlast.
    apply batchLoop_Break in Hloop as (taken & Hb & Hstop);
      [ | apply tracksLast_init ].
    simpl in Hb. rewrite Hb in *.
    eapply stopsAt_next_row; eassumption.
Qed.

(** * Further properties of the routines *)

Section SendDiscipline.

Context {Payload : Type} `{!ByteString Payload} `{!ReplLogCodec Payload}.
Implicit Types (svr : SegmentMgr Payload) (conn : BlockingTcpClient Payload).
Implicit Types (batch : list (ReplLog Payload)).

Lemma gatherBinlogs_Failed svr sid pos s :
  gatherBinlogs svr sid pos = Done (Failed s) ->
  exists store,
    svr sid = Some store /\
    (createTransaction store = Failed s \/
     exists txn,
       createTransaction store = Value txn /\
       In (Failed s) (createBinlogCursor txn (u64 (pos + 1))) /\
       code s <> ERR_EXHAUST).
Proof.
  unfold gatherBinlogs. intros H.
  destruct (svr sid) as [store | ]; [ | discriminate ].
  exists store. split; [ reflexivity | ].
  destruct (createTransaction store) as [txn | s'] eqn:Htxn.
  - right. exists txn. split; [ reflexivity | ].
    destruct (batchLoop _ _) as [st rest | s'] eqn:Hloop; [ discriminate | ].
    injection H as ->. eapply batchLoop_Return, Hloop.
  - left. now injection H as ->.
Qed.

(** X1. A call of [masterSendBinlog] that fails has left the connection as
    it was exactly when the failure came from the store: then the client is
    untouched and the status is that of [createTransaction], or a failure
    that the cursor reported, which is never the exhaustion of the cursor.
    Every other failure has written to the connection first. *)
Theorem masterSendBinlog_store_failure_writes_nothing
    svr conn sid dst pos s conn' :
  masterSendBinlog svr conn sid dst pos = Done (Failed s, conn') ->
  (history conn' = history conn <->
   gatherBinlogs svr sid pos = Done (Failed s)) /\
  (gatherBinlogs svr sid pos = Done (Failed s) ->
   conn' = conn /\
   exists store,
     svr sid = Some store /\
     (createTransaction store = Failed s \/
      exists txn,
        createTransaction store = Value txn /\
        In (Failed s) (createBinlogCursor txn (u64 (pos + 1))) /\
        code s <> ERR_EXHAUST)).
Proof.
  unfold masterSendBinlog. intros H.
  destruct (gatherBinlogs svr sid pos) as [ [batch | s'] | ] eqn:Hgather;
    [ | | discriminate ].
  - split; [ split | ]; [ | discriminate | discriminate ].
    intros Hhist. exfalso.
    injection H as H. unfold sendBinlogs, writeData, readLine in H.
    cbn zeta in H.
    destruct (negb (Status_ok _)).
    + injection H as _ <-. simpl in Hhist.
      apply (f_equal (@length _)) in Hhist. rewrite length_app in Hhist.
      simpl in Hhist. lia.
    + assert (Hlen : length (history conn') = (length (history conn) + 2)%nat).
      { destruct (answerRead _ _ _) as [line | s'];
          [ destruct (string_neb line "+OK"); [ | destruct (last batch) ] | ];
          injection H as _ <-; simpl; rewrite !length_app; simpl; lia. }
      rewrite Hhist in Hlen. lia.
  - injection H as -> ->. split; [ split; reflexivity | ].
    intros _. split; [ reflexivity | ]. now apply gatherBinlogs_Failed.
Qed.

(** X2. On the connection [masterSendBinlog] does at most this: one write,
    of the frame of the batch it gathered, and, only when that write
    succeeded, one read with the same timeout. Its result follows from the
    two answers: the status of a failed write, the failure of the read,
    [ERR_NETWORK] for any line other than [+OK], and a position for [+OK]. *)
Theorem masterSendBinlog_connection_discipline svr conn sid dst pos res conn' :
  masterSendBinlog svr conn sid dst pos = Done (res, conn') ->
  (conn' = conn /\ exists s, res = Failed s /\
                             gatherBinlogs svr sid pos = Done (Failed s)) \/
  exists batch secs,
    gatherBinlogs svr sid pos = Done (Value batch) /\
    secs = writeTimeoutSecs (wireSize (frameBinlogs dst batch)) /\
    ((exists s,
         answerWrite (peer conn)
           (history conn ++ [WriteData (frameBinlogs dst batch) secs]) = s /\
         Status_ok s = false /\ res = Failed s /\
         history conn' =
           history conn ++ [WriteData (frameBinlogs dst batch) secs]) \/
     (exists answer,
         Status_ok (answerWrite (peer conn)
           (history conn ++ [WriteData (frameBinlogs dst batch) secs])) = true /\
         history conn' =
           history conn ++ [WriteData (frameBinlogs dst batch) secs;
                            ReadLine secs answer] /\
         res = match answer with
               | Failed s => Failed s
               | Value line =>
                   if String.eqb line "+OK" then
                     Value (match last batch with
                            | Some v => txnIdOf v
                            | None => pos
                            end)
                   else Failed badReturn
               end)).
Proof.
  unfold masterSendBinlog. intros H.
  destruct (gatherBinlogs svr sid pos) as [ [batch | s'] | ] eqn:Hgather;
    [ | | discriminate ].
  - right. exists batch, (writeTimeoutSecs (wireSize (frameBinlogs dst batch))).
    split; [ reflexivity | ]. split; [ reflexivity | ].
    injection H as H. unfold sendBinlogs, writeData, readLine in H.
    cbn zeta in H.
    set (frame := frameBinlogs dst batch) in *.
    set (secs := writeTimeoutSecs (wireSize frame)) in *.
    destruct (Status_ok (answerWrite (peer conn) _)) eqn:Hok; cbn in H.
    + right.
      exists (answerRead (peer conn) (history conn ++ [WriteData frame secs]) secs).
      split; [ reflexivity | ].
      destruct (answerRead _ _ _) as [line | s'].
      * unfold string_neb in H.
        destruct (String.eqb line "+OK"); cbn in H;
          [ destruct (last batch) | ]; injection H as <- <-; cbn;
          rewrite <- app_assoc; split; reflexivity.
      * injection H as <- <-. cbn. rewrite <- app_assoc. split; reflexivity.
    + left. eexists. split; [ reflexivity | ]. split; [ exact Hok | ].
      injection H as <- <-. split; reflexivity.
  - left. injection H as <- <-. split; [ reflexivity | ]. now exists s'.
Qed.

End SendDiscipline.

Section PushRoutine.

Context {Payload : Type} `{!ByteString Payload} `{!ReplLogCodec Payload}.
Implicit Types (svr : SegmentMgr Payload) (mgr : ReplManager Payload).
Implicit Types (e : MPovStatus Payload).

Lemma lookup_setPushStatus mgr sid tbl sid' cid' :
  pushStatus (setPushStatus mgr sid tbl) sid' !! cid' =
  if decide (sid = sid') then tbl !! cid' else pushStatus mgr sid' !! cid'.
Proof.
  unfold setPushStatus. simpl. case_decide as Hd.
  - subst. now rewrite fn_lookup_insert.
  - now rewrite fn_lookup_insert_ne.
Qed.

(** What the scope guard does to the tables. *)
Lemma pushGuard_Done mgr sid cid nextSched mgr' :
  pushGuard mgr sid cid nextSched = Done mgr' ->
  pushStatus mgr' sid !! cid =
    (fun e => mkMPovStatus false (dstStoreId e) (binlogPos e) nextSched
                (client e) (clientId e)) <$> (pushStatus mgr sid !! cid) /\
  (forall sid' cid',
      (sid', cid') <> (sid, cid) ->
      pushStatus mgr' sid' !! cid' = pushStatus mgr sid' !! cid') /\
  firstBinlogId mgr' = firstBinlogId mgr /\
  clientIdGen mgr' = clientIdGen mgr.
Proof.
  unfold pushGuard. intros H.
  destruct (pushStatus mgr sid !! cid) as [e | ] eqn:He.
  - destruct (isRunning e); [ | discriminate ]. injection H as <-.
    split; [ | split; [ | split ] ]; try reflexivity.
    + rewrite lookup_setPushStatus, decide_True by reflexivity.
      now rewrite lookup_insert_eq.
    + intros sid' cid' Hne. rewrite lookup_setPushStatus.
      case_decide as Hd; [ subst sid' | reflexivity ].
      rewrite lookup_insert_ne; [ reflexivity | congruence ].
  - injection H as <-. rewrite He. now repeat split.
Qed.

(** X3. A run of [masterPushRoutine] that returns leaves the entry it was
    run for out of the table or not running, creates no entry, and touches
    nothing else: every other entry, [firstBinlogId] and the client id
    counter are as before. *)
Theorem masterPushRoutine_releases_entry svr now0 now1 mgr sid cid mgr' :
  masterPushRoutine svr now0 now1 mgr sid cid = Done mgr' ->
  match pushStatus mgr' sid !! cid with
  | Some e' => isRunning e' = false /\ is_Some (pushStatus mgr sid !! cid)
  | None => True
  end /\
  (forall sid' cid',
      (sid', cid') <> (sid, cid) ->
      pushStatus mgr' sid' !! cid' = pushStatus mgr sid' !! cid') /\
  firstBinlogId mgr' = firstBinlogId mgr /\
  clientIdGen mgr' = clientIdGen mgr.
Proof.
  unfold masterPushRoutine. intros H.
  destruct (pushStatus mgr sid !! cid) as [e | ] eqn:He.
  - destruct (masterSendBinlog _ _ _ _ _) as [ [[newPos | s] conn'] | ];
      [ | | discriminate ];
      apply pushGuard_Done in H as (Hat & Hother & Hfirst & Hgen).
    + rewrite lookup_setPushStatus, decide_True, lookup_insert_eq in Hat
        by reflexivity.
      rewrite Hat. simpl. split; [ split; [ reflexivity | now eexists ] | ].
      split; [ | split; assumption ].
      intros sid' cid' Hne. rewrite (Hother _ _ Hne), lookup_setPushStatus.
      case_decide as Hd; [ subst sid' | reflexivity ].
      rewrite lookup_insert_ne; [ reflexivity | congruence ].
    + rewrite lookup_setPushStatus, decide_True, lookup_delete_eq in Hat
        by reflexivity.
      rewrite Hat. simpl. split; [ exact I | ].
      split; [ | split; assumption ].
      intros sid' cid' Hne. rewrite (Hother _ _ Hne), lookup_setPushStatus.
      case_decide as Hd; [ subst sid' | reflexivity ].
      rewrite lookup_delete_ne; [ reflexivity | congruence ].
  - apply pushGuard_Done in H as (Hat & Hother & Hfirst & Hgen).
    rewrite He in Hat. rewrite Hat. simpl. now repeat split.
Qed.

(** X4. When [masterSendBinlog] fails, whatever the failure and whether or
    not the entry was marked running, the routine returns and the entry is
    gone; and a run for an entry that is not in the table changes nothing,
    whatever the store and the clock. *)
Theorem masterPushRoutine_failure_erases svr now0 now1 mgr sid cid e s conn' :
  pushStatus mgr sid !! cid = Some e ->
  masterSendBinlog svr (client e) sid (dstStoreId e) (binlogPos e) =
    Done (Failed s, conn') ->
  exists mgr',
    masterPushRoutine svr now0 now1 mgr sid cid = Done mgr' /\
    pushStatus mgr' sid !! cid = None /\
    forall svr2 t0 t1,
      masterPushRoutine svr2 t0 t1 mgr' sid cid = Done mgr'.
Proof.
  intros He Hsend.
  set (mgr' := setPushStatus mgr sid (delete cid (pushStatus mgr sid))).
  assert (Hnone : pushStatus mgr' sid !! cid = None).
  { unfold mgr'. rewrite lookup_setPushStatus, decide_True by reflexivity.
    apply lookup_delete_eq. }
  exists mgr'. split; [ | split; [ exact Hnone | ] ].
  - unfold masterPushRoutine. rewrite He, Hsend. fold mgr'.
    unfold pushGuard. now rewrite Hnone.
  - intros svr2 t0 t1. unfold masterPushRoutine, pushGuard. now rewrite Hnone.
Qed.

Lemma masterPushRoutine_success svr now0 now1 mgr sid cid e newPos conn' :
  pushStatus mgr sid !! cid = Some e ->
  isRunning e = true ->
  masterSendBinlog svr (client e) sid (dstStoreId e) (binlogPos e) =
    Done (Value newPos, conn') ->
  exists mgr',
    masterPushRoutine svr now0 now1 mgr sid cid = Done mgr' /\
    pushStatus mgr' sid !! cid =
      Some (mkMPovStatus false (dstStoreId e) newPos
              (if newPos >? binlogPos e then now1 else now1 + seconds 1)
              conn' (clientId e)).
Proof.
  intros He Hrun Hsend. unfold masterPushRoutine. rewrite He, Hsend.
  unfold pushGuard.
  rewrite lookup_setPushStatus, decide_True, lookup_insert_eq by reflexivity.
  simpl. rewrite Hrun. eexists. split; [ reflexivity | ].
  rewrite lookup_setPushStatus, decide_True by reflexivity.
  now rewrite lookup_insert_eq.
Qed.

(** X5. The next push of a replica is due at once when the push sent rows,
    and one second later when the batch was empty. For a running entry below
    the greatest [uint64_t], over cursors that honour their start, a
    successful push leaves the entry not running, at the returned position,
    with [nextSchedTime] the clock if the batch held a row and the clock
    plus one second if it held none. *)
Theorem masterPushRoutine_backs_off_when_idle
    svr now0 now1 mgr sid cid e batch newPos conn' :
  cursorsHonourStart svr ->
  pushStatus mgr sid !! cid = Some e ->
  isRunning e = true ->
  0 <= binlogPos e < UINT64_MAX ->
  gatherBinlogs svr sid (binlogPos e) = Done (Value batch) ->
  masterSendBinlog svr (client e) sid (dstStoreId e) (binlogPos e) =
    Done (Value newPos, conn') ->
  exists mgr' e',
    masterPushRoutine svr now0 now1 mgr sid cid = Done mgr' /\
    pushStatus mgr' sid !! cid = Some e' /\
    isRunning e' = false /\
    binlogPos e' = newPos /\
    client e' = conn' /\
    nextSchedTime e' =
      match batch with
      | [] => now1 + seconds 1
      | _ :: _ => now1
      end.
Proof.
  intros Hsvr He Hrun Hrange Hgather Hsend.
  destruct (masterPushRoutine_success svr now0 now1 mgr sid cid e newPos conn'
              He Hrun Hsend) as (mgr' & Hdone & Hat).
  exists mgr'. eexists. split; [ exact Hdone | ]. split; [ exact Hat | ].
  simpl. repeat split.
  pose proof (masterSendBinlog_Value _ _ _ _ _ _ _ Hsend)
    as (batch' & Hgather' & Hsent).
  rewrite Hgather in Hgather'. injection Hgather' as <-.
  apply sendBinlogs_Value in Hsent as [_ Hpos].
  destruct batch as [ | r batch ].
  - simpl in Hpos. subst newPos.
    destruct (Z.gtb_spec (binlogPos e) (binlogPos e)); [ lia | reflexivity ].
  - destruct (last (r :: batch)) as [l | ] eqn:Hlast;
      [ | apply last_None in Hlast; discriminate ].
    subst newPos.
    destruct (gatherBinlogs_store _ _ _ _ Hgather) as (store & txn & Hs & Ht).
    destruct (gatherBinlogs_Value _ _ _ _ _ _ Hs Ht Hgather) as [rest Hstop].
    apply stopsAt_prefix in Hstop as [tail Hcur].
    assert (Hin : In (Value l) (createBinlogCursor txn (u64 (binlogPos e + 1)))).
    { rewrite Hcur. apply in_or_app. left. apply in_map.
      apply last_Some in Hlast as [b' ->]. apply in_or_app. right. now left. }
    apply (Hsvr _ _ _ _ _ Hs Ht) in Hin.
    rewrite u64_small in Hin by (unfold UINT64_MOD, UINT64_MAX in *; lia).
    destruct (Z.gtb_spec (txnIdOf l) (binlogPos e)); [ reflexivity | lia ].
Qed.

End PushRoutine.

Section RegistrationMore.

Context {Payload : Type}.
Variable stoul : string -> Thrown Z.
Variable INSTANCE_NUM : Z.
Implicit Types (mgr : ReplManager Payload) (conn : BlockingTcpClient Payload).

Lemma lookup_withEntry mgr sid (e : MPovStatus Payload) sid' cid' :
  pushStatus (withEntry mgr sid e) sid' !! cid' =
  if decide (sid = sid' /\ clientIdGen mgr = cid') then Some e
  else pushStatus mgr sid' !! cid'.
Proof.
  unfold withEntry. simpl.
  destruct (decide (sid = sid')) as [<- | Hs].
  - rewrite fn_lookup_insert.
    destruct (decide (clientIdGen mgr = cid')) as [<- | Hc].
    + rewrite lookup_insert_eq. now rewrite decide_True.
    + rewrite lookup_insert_ne by easy. rewrite decide_False; [ easy | tauto ].
  - rewrite fn_lookup_insert_ne by easy. rewrite decide_False; [ easy | tauto ].
Qed.

(** The entry that a completed handshake creates. *)
Lemma registerIncrSync_success now mgr0 mgr1 conn
    (storeIdArg dstStoreIdArg binlogPosArg : string) sid dst pos :
  registrationConditions stoul INSTANCE_NUM mgr0 mgr1 conn
    storeIdArg dstStoreIdArg binlogPosArg sid dst pos ->
  exists conn',
    registerIncrSync stoul INSTANCE_NUM now mgr0 mgr1 conn
      storeIdArg dstStoreIdArg binlogPosArg =
    (withEntry mgr1 sid
       (mkMPovStatus false (u32 dst) pos now conn' (clientIdGen mgr1)),
     conn').
Proof.
  intros ((x & y & z & Ha & Hb & Hc & -> & -> & ->) & Hs & Hd & H0 & H1 & Hr).
  unfold registerIncrSync. rewrite Ha, Hb, Hc.
  rewrite (proj2 (geb_false _ _) Hs), (proj2 (geb_false _ _) Hd). cbn [orb].
  rewrite (proj2 (gtb_false _ _) H0).
  unfold readLine, writeLine. cbn [snd fst history peer getRemoteRepr].
  rewrite Hr. cbn [string_neb]. unfold string_neb. rewrite String.eqb_refl.
  cbn [negb]. rewrite (proj2 (gtb_false _ _) H1).
  eexists. reflexivity.
Qed.

(** X6. What [registerIncrSync] does on the connection is one of two
    things: it writes a single [-ERR] line and leaves the tables alone, or
    it writes [+OK] and reads one line. A conversion that throws is
    reported with what it threw, the arguments being converted in order;
    a store id out of range is reported as such whatever the position. *)
Theorem registerIncrSync_connection_discipline now mgr0 mgr1 conn
    (storeIdArg dstStoreIdArg binlogPosArg : string) :
  ((fst (registerIncrSync stoul INSTANCE_NUM now mgr0 mgr1 conn
           storeIdArg dstStoreIdArg binlogPosArg) = mgr1 /\
    exists line,
      history (snd (registerIncrSync stoul INSTANCE_NUM now mgr0 mgr1 conn
                      storeIdArg dstStoreIdArg binlogPosArg)) =
        history conn ++ [WriteLine line 1] /\
      (line = "-ERR invalid storeId" \/ line = "-ERR invalid binlogPos" \/
       exists w, line = "-ERR parse opts failed:" +:+ w)) \/
   history (snd (registerIncrSync stoul INSTANCE_NUM now mgr0 mgr1 conn
                   storeIdArg dstStoreIdArg binlogPosArg)) =
     history conn ++
       [WriteLine "+OK" 1;
        ReadLine 1 (answerRead (peer conn)
                      (history conn ++ [WriteLine "+OK" 1]) 1)]) /\
  (forall w,
      (stoul storeIdArg = Throws w \/
       (exists a, stoul storeIdArg = Returns a /\
                  stoul dstStoreIdArg = Throws w) \/
       (exists a b, stoul storeIdArg = Returns a /\
                    stoul dstStoreIdArg = Returns b /\
                    stoul binlogPosArg = Throws w)) ->
      history (snd (registerIncrSync stoul INSTANCE_NUM now mgr0 mgr1 conn
                      storeIdArg dstStoreIdArg binlogPosArg)) =
        history conn ++ [WriteLine ("-ERR parse opts failed:" +:+ w) 1]) /\
  (forall a b c,
      stoul storeIdArg = Returns a -> stoul dstStoreIdArg = Returns b ->
      stoul binlogPosArg = Returns c ->
      (INSTANCE_NUM <= u64 a \/ INSTANCE_NUM <= u64 b) ->
      history (snd (registerIncrSync stoul INSTANCE_NUM now mgr0 mgr1 conn
                      storeIdArg dstStoreIdArg binlogPosArg)) =
        history conn ++ [WriteLine "-ERR invalid storeId" 1]).
Proof.
  split; [ | split ].
  - unfold registerIncrSync, readLine, writeLine.
    repeat match goal with
           | |- context [match ?x with _ => _ end] =>
               destruct x;
               cbn [fst snd history peer getRemoteRepr];
               try (left; split; [ reflexivity | ]; eexists;
                    split; [ reflexivity | ]; eauto; fail);
               try (right; rewrite <- app_assoc; reflexivity)
           end.
  - intros w [Ha | [(a & Ha & Hb) | (a & b & Ha & Hb & Hc)]];
      unfold registerIncrSync; rewrite Ha; try rewrite Hb; try rewrite Hc;
      reflexivity.
  - intros a b c Ha Hb Hc Hrange. unfold registerIncrSync.
    rewrite Ha, Hb, Hc.
    assert ((u64 a >=? INSTANCE_NUM) || (u64 b >=? INSTANCE_NUM) = true) as ->.
    { apply orb_true_iff. rewrite !Z.geb_leb, !Z.leb_le. tauto. }
    reflexivity.
Qed.

(** X7. Two registrations, one after the other, whose handshakes complete:
    both entries are in the table afterwards, each at the position asked
    for, under client ids that differ, the second registration having left
    the first entry alone; no other entry was touched and [firstBinlogId]
    is as it was. *)
Theorem registrations_do_not_collide now1 now2 mgr conn1 conn2
    (a1 b1 c1 a2 b2 c2 : string) sid1 dst1 pos1 sid2 dst2 pos2 :
  0 <= clientIdGen mgr < UINT64_MOD ->
  registrationConditions stoul INSTANCE_NUM mgr mgr conn1 a1 b1 c1
    sid1 dst1 pos1 ->
  registrationConditions stoul INSTANCE_NUM
    (fst (registerIncrSync stoul INSTANCE_NUM now1 mgr mgr conn1 a1 b1 c1))
    (fst (registerIncrSync stoul INSTANCE_NUM now1 mgr mgr conn1 a1 b1 c1))
    conn2 a2 b2 c2 sid2 dst2 pos2 ->
  exists mgr2,
    mgr2 = fst (registerIncrSync stoul INSTANCE_NUM now2
                  (fst (registerIncrSync stoul INSTANCE_NUM now1 mgr mgr
                          conn1 a1 b1 c1))
                  (fst (registerIncrSync stoul INSTANCE_NUM now1 mgr mgr
                          conn1 a1 b1 c1))
                  conn2 a2 b2 c2) /\
    u64 (clientIdGen mgr + 1) <> clientIdGen mgr /\
    posAt mgr2 sid1 (clientIdGen mgr) = Some pos1 /\
    posAt mgr2 sid2 (u64 (clientIdGen mgr + 1)) = Some pos2 /\
    (forall sid cid,
        cid <> clientIdGen mgr -> cid <> u64 (clientIdGen mgr + 1) ->
        pushStatus mgr2 sid !! cid = pushStatus mgr sid !! cid) /\
    firstBinlogId mgr2 = firstBinlogId mgr.
Proof.
  intros Hgen H1 H2.
  destruct (registerIncrSync_success now1 _ _ _ _ _ _ _ _ _ H1) as [c1' E1].
  rewrite E1 in H2 |- *. cbn [fst] in H2 |- *.
  destruct (registerIncrSync_success now2 _ _ _ _ _ _ _ _ _ H2) as [c2' E2].
  rewrite E2. cbn [fst]. eexists. split; [ reflexivity | ].
  assert (Hne : u64 (clientIdGen mgr + 1) <> clientIdGen mgr).
  { unfold u64, UINT64_MOD in *.
    destruct (Z.eq_dec (clientIdGen mgr) (2 ^ 64 - 1)) as [E | E].
    - rewrite E. replace (2 ^ 64 - 1 + 1) with (2 ^ 64) by lia.
      rewrite Z.mod_same by lia. lia.
    - rewrite Z.mod_small by lia. lia. }
  split; [ exact Hne | ].
  unfold posAt. rewrite !lookup_withEntry. cbn [clientIdGen withEntry].
  split; [ | split; [ | split ] ].
  - rewrite decide_False by tauto. rewrite decide_True by tauto. reflexivity.
  - rewrite decide_True by tauto. reflexivity.
  - intros sid cid Hc1 Hc2. rewrite !lookup_withEntry. cbn [clientIdGen withEntry].
    rewrite !decide_False; [ reflexivity | | ]; intros [_ E]; congruence.
  - reflexivity.
Qed.

End RegistrationMore.

Section FullSyncMore.

Context {Payload : Type}.
Implicit Types (w : SyncState Payload) (fsys : FileSys Payload).
Implicit Types (tr : list (Action Payload)).

#[local] Arguments syncWriteLine : simpl never.
#[local] Arguments syncWriteData : simpl never.
#[local] Arguments syncReadLine : simpl never.
#[local] Arguments act : simpl never.

(** X8. For a store that is not running the routine writes the line
    [-ERR store is not running] and nothing else: it takes no backup, so
    there is none to release, and it neither opens a file nor reads from the
    slave. *)
Theorem full_sync_of_stopped_store (svr : SegmentMgr Payload) fsys
    (conn : BlockingTcpClient Payload) sid store :
  svr sid = Some store ->
  Store_isRunning store = false ->
  exists w,
    supplyFullSyncRoutine svr fsys conn sid = Some (Done w) /\
    syncTrace w = [ActNet (WriteLine "-ERR store is not running" 1)] /\
    history (syncClient w) =
      history conn ++ [WriteLine "-ERR store is not running" 1].
Proof.
  intros Hstore Hrun. unfold supplyFullSyncRoutine. rewrite Hstore, Hrun.
  eexists. split; [ reflexivity | ]. split; reflexivity.
Qed.

Lemma readsOf_app tr1 tr2 : readsOf (tr1 ++ tr2) = readsOf tr1 ++ readsOf tr2.
Proof. unfold readsOf. apply flat_map_app. Qed.

Lemma dataWritten_app tr1 tr2 :
  dataWritten (tr1 ++ tr2) = dataWritten tr1 ++ dataWritten tr2.
Proof. unfold dataWritten. apply flat_map_app. Qed.

Lemma linesWritten_app tr1 tr2 :
  linesWritten (tr1 ++ tr2) = linesWritten tr1 ++ linesWritten tr2.
Proof. unfold linesWritten. apply flat_map_app. Qed.

Lemma totalRead_app tr1 tr2 :
  totalRead (tr1 ++ tr2) = totalRead tr1 + totalRead tr2.
Proof.
  unfold totalRead. rewrite readsOf_app.
  induction (readsOf tr1) as [ | rd l IH ]; simpl; [ reflexivity | ].
  rewrite IH. lia.
Qed.

Lemma tiles_total fname offset remain l :
  tiles fname offset remain l ->
  fold_right (fun rd n => snd rd + n) 0 l = remain.
Proof. induction 1 as [ | offset remain count l _ _ _ _ IH ]; simpl; lia. Qed.

(** The run of the loop over one file, by induction on its fuel. *)
Lemma streamFile_run fuel fsys fname : forall offset remain w w',
  0 <= remain < UINT64_MOD ->
  streamFile fuel fsys fname offset remain w = Some (Continue, w') ->
  exists tr,
    syncTrace w' = syncTrace w ++ tr /\
    tiles fname offset remain (readsOf tr) /\
    Forall2 (fun rd data =>
               exists buf,
                 read fsys (fst (fst rd)) (snd (fst rd)) (snd rd) = Some buf /\
                 data = [Raw buf])
            (readsOf tr) (dataWritten tr) /\
    linesWritten tr = [] /\
    totalRead tr = remain.
Proof.
  induction fuel as [ | fuel IH ]; intros offset remain w w' Hr H;
    cbn [streamFile] in H;
    (destruct (Z.eqb_spec remain 0) as [-> | Hnz];
     [ injection H as <-; exists []; rewrite app_nil_r;
       repeat split; constructor
     | try discriminate ]).
  set (count := Z.min remain readBufCapacity) in *.
  assert (Hcap : readBufCapacity = 20971520) by reflexivity.
  destruct (read fsys fname offset count) as [readBuf | ] eqn:Hread;
    [ | discriminate ].
  unfold syncWriteData, act in H. cbn in H.
  destruct (negb (Status_ok _)); [ discriminate | ].
  assert (Hsub : u64 (remain - count) = remain - count).
  { apply u64_small. unfold count, UINT64_MOD in *. lia. }
  rewrite Hsub in H.
  apply IH in H as (tr & Htr & Htiles & Hdata & Hlines & Htotal);
    [ | unfold count, UINT64_MOD in *; lia ].
  cbn [syncTrace] in Htr.
  exists (ActRead fname offset count :: ActNet (WriteData [Raw readBuf] 1) :: tr).
  split; [ rewrite Htr, <- !app_assoc; reflexivity | ].
  split; [ | split; [ | split ] ].
  - cbn. apply tiles_cons; try assumption; unfold count; lia.
  - cbn. constructor; [ | exact Hdata ]. exists readBuf. now split.
  - cbn. exact Hlines.
  - change (totalRead ([ActRead fname offset count;
                         ActNet (WriteData [Raw readBuf] 1)] ++ tr) = remain).
    rewrite totalRead_app, Htotal. unfold totalRead. cbn. lia.
Qed.

(** X9. When the loop over one file runs to its end, its reads cover the
    [remain] bytes of the file from [offset] on, piece after piece, each of
    [readBufCapacity] bytes but the last; what it writes to the slave is
    what those reads returned, in order; and it writes no line. *)
Theorem streamFile_tiles_the_file fuel fsys fname offset remain w w' :
  0 <= remain < UINT64_MOD ->
  streamFile fuel fsys fname offset remain w = Some (Continue, w') ->
  exists tr,
    syncTrace w' = syncTrace w ++ tr /\
    tiles fname offset remain (readsOf tr) /\
    Forall2 (fun rd data =>
               exists buf,
                 read fsys (fst (fst rd)) (snd (fst rd)) (snd rd) = Some buf /\
                 data = [Raw buf])
            (readsOf tr) (dataWritten tr) /\
    linesWritten tr = [] /\
    totalRead tr = remain.
Proof. apply streamFile_run. Qed.

Lemma fileAction_not_read tr secs answer :
  Forall fileAction tr -> ~ In (ActNet (ReadLine secs answer)) tr.
Proof.
  intros Hall Hin. rewrite List.Forall_forall in Hall.
  exact (Hall _ Hin).
Qed.

Lemma streamFile_fileActions fuel fsys fname : forall offset remain w flow w',
  streamFile fuel fsys fname offset remain w = Some (flow, w') ->
  exists tr, syncTrace w' = syncTrace w ++ tr /\ Forall fileAction tr.
Proof.
  induction fuel as [ | fuel IH ]; intros offset remain w flow w' H;
    cbn [streamFile] in H;
    (destruct (remain =? 0);
     [ injection H as <- <-; exists []; rewrite app_nil_r; split;
       [ reflexivity | constructor ]
     | try discriminate ]).
  destruct (read fsys fname offset _) as [readBuf | ].
  - unfold syncWriteData, act in H. cbn in H.
    destruct (negb (Status_ok _)).
    + injection H as <- <-. cbn. eexists. rewrite <- app_assoc.
      split; [ reflexivity | repeat constructor ].
    + apply IH in H as (tr & Htr & Hall). cbn in Htr.
      eexists. rewrite Htr, <- !app_assoc. split; [ reflexivity | ].
      repeat constructor. exact Hall.
  - injection H as <- <-. unfold act. cbn. eexists.
    split; [ reflexivity | repeat constructor ].
Qed.

(** The loop over the files: it never reads from the slave; and when it
    runs to its end it has sent the names of the files in their order and
    asked the file system for as many bytes as the files have. *)
Lemma streamFiles_shape fsys dir files : forall w flow w',
  streamFiles fsys dir files w = Some (flow, w') ->
  exists tr,
    syncTrace w' = syncTrace w ++ tr /\
    Forall fileAction tr /\
    (flow = Continue ->
     totalRead tr = totalSize files /\ linesWritten tr = map fst files).
Proof.
  induction files as [ | fileInfo files IH ]; intros w flow w' H;
    cbn [streamFiles] in H.
  - injection H as <- <-. exists []. rewrite app_nil_r.
    split; [ reflexivity | ]. split; [ constructor | ]. now split.
  - unfold syncWriteLine, act, writeLine in H.
    cbn [fst snd syncClient syncTrace history peer getRemoteRepr] in H.
    destruct (negb (Status_ok _)).
    { injection H as <- <-. cbn. eexists. split; [ reflexivity | ].
      split; [ repeat constructor | discriminate ]. }
    destruct (negb (is_open fsys _)).
    { injection H as <- <-. cbn. eexists. rewrite <- app_assoc.
      split; [ reflexivity | ]. split; [ repeat constructor | discriminate ]. }
    destruct (streamFile _ _ _ _ _ _) as [ [[ | ] w3] | ] eqn:Hfile;
      [ | | discriminate ].
    + pose proof (streamFile_fileActions _ _ _ _ _ _ _ _ Hfile)
        as (tr1 & Htr1 & Hall1).
      apply streamFile_run in Hfile
        as (tr1' & Htr1' & _ & _ & Hlines1 & Htotal1);
        [ | apply Z.mod_pos_bound; reflexivity ].
      rewrite Htr1 in Htr1'. apply app_inv_head in Htr1'. subst tr1'.
      apply IH in H as (tr2 & Htr2 & Hall2 & Hcont).
      cbn in Htr1.
      exists (ActNet (WriteLine (fst fileInfo) 1)
                :: ActOpen (dir +:+ "/" +:+ fst fileInfo) :: tr1 ++ tr2).
      split; [ rewrite Htr2, Htr1, <- !app_assoc; reflexivity | ].
      split; [ repeat constructor; now apply Forall_app | ].
      intros Hflow. destruct (Hcont Hflow) as [Htotal2 Hlines2].
      split.
      * change (totalRead ([ActNet (WriteLine (fst fileInfo) 1);
                            ActOpen (dir +:+ "/" +:+ fst fileInfo)]
                             ++ tr1 ++ tr2) = totalSize (fileInfo :: files)).
        rewrite !totalRead_app, Htotal1, Htotal2. reflexivity.
      * change (linesWritten ([ActNet (WriteLine (fst fileInfo) 1);
                               ActOpen (dir +:+ "/" +:+ fst fileInfo)]
                                ++ tr1 ++ tr2) = map fst (fileInfo :: files)).
        rewrite !linesWritten_app, Hlines1, Hlines2. reflexivity.
    + injection H as <- <-.
      apply streamFile_fileActions in Hfile as (tr1 & Htr1 & Hall1).
      cbn in Htr1. eexists. rewrite Htr1, <- !app_assoc.
      split; [ reflexivity | ].
      split; [ repeat constructor; exact Hall1 | discriminate ].
Qed.

(** X10. The routine reads from the slave at most once, and only when
    every file has been streamed to its end: a trace that holds a read of a
    line is the backup, the manifest, the names of the files in the order of
    the manifest with reads of as many bytes as the files have, that one
    read, with a timeout of one second, and the release of the backup. *)
Theorem full_sync_reads_only_after_streaming (svr : SegmentMgr Payload) fsys
    (conn : BlockingTcpClient Payload) sid store bkInfo w secs answer :
  svr sid = Some store ->
  Store_isRunning store = true ->
  backup store = Value bkInfo ->
  supplyFullSyncRoutine svr fsys conn sid = Some (Done w) ->
  In (ActNet (ReadLine secs answer)) (syncTrace w) ->
  exists tr,
    syncTrace w =
      ActBackup
        :: ActNet (WriteLine (manifestJson (getFileList bkInfo)) 1)
        :: tr ++ [ActNet (ReadLine 1 answer); ActReleaseBackup] /\
    secs = 1 /\
    Forall fileAction tr /\
    linesWritten tr = map fst (getFileList bkInfo) /\
    totalRead tr = totalSize (getFileList bkInfo).
Proof.
  intros Hstore Hrun Hbackup H Hin.
  unfold supplyFullSyncRoutine in H. rewrite Hstore, Hrun, Hbackup in H.
  cbn [negb] in H. unfold fullSyncBody, syncWriteLine, act in H. cbn in H.
  destruct (negb (Status_ok _)).
  { injection H as <-. cbn in Hin.
    destruct Hin as [Hin | [Hin | [Hin | []]]]; discriminate. }
  destruct (streamFiles _ _ _ _) as [ [[ | ] w2] | ] eqn:Hfiles;
    [ | | discriminate ];
    apply streamFiles_shape in Hfiles as (tr & Htr & Hall & Hcont);
    cbn in Htr; injection H as <-.
  - unfold syncReadLine, act. cbn. rewrite Htr.
    destruct (Hcont eq_refl) as [Htotal Hlines].
    cbn in Hin. rewrite Htr in Hin.
    set (r := answerRead _ _ _) in *.
    assert (Heq : @ReadLine Payload secs answer = ReadLine 1 r).
    { rewrite <- !app_assoc in Hin. cbn in Hin.
      destruct Hin as [Hin | [Hin | Hin]]; try discriminate.
      apply in_app_or in Hin as [Hin | [Hin | [Hin | []]]];
        [ exfalso; eapply fileAction_not_read; eassumption
        | injection Hin as <- <-; reflexivity | discriminate ]. }
    injection Heq as -> ->.
    exists tr. rewrite <- !app_assoc. cbn. now repeat split.
  - exfalso. unfold act in Hin. cbn in Hin. rewrite Htr in Hin.
    cbn in Hin.
    destruct Hin as [Hin | [Hin | Hin]]; try discriminate.
    apply in_app_or in Hin as [Hin | [Hin | []]];
      [ eapply fileAction_not_read; eassumption | discriminate ].
Qed.

End FullSyncMore.

Section Admission.

Context {Payload : Type}.
Implicit Types (conn : BlockingTcpClient Payload).

(** X11. [supplyFullSync] asks the pool before it looks at its argument:
    with a full pool the answer is [-ERR workerpool full], whatever the
    argument, and the conversion, which might throw, is not run. With room
    in the pool a store id that is not negative is scheduled as its low 32
    bits, without any test against the stores that exist: an id of
    2^32 + k is served as store k, and the routine for an id that has no
    store dies on its [INVARIANT]; a failed or negative conversion is
    answered [-ERR invalid storeId]. *)
Theorem supplyFullSync_admission (pool : WorkerPool)
    (stoulInt64 : string -> Thrown (Expected Z)) conn (storeIdArg : string) :
  (isFull pool = true ->
   exists conn',
     supplyFullSync pool stoulInt64 conn storeIdArg = Refused conn' /\
     history conn' = history conn ++ [WriteLine "-ERR workerpool full" 1]) /\
  (isFull pool = false ->
   forall v,
     stoulInt64 storeIdArg = Returns (Value v) -> 0 <= v ->
     supplyFullSync pool stoulInt64 conn storeIdArg =
       Scheduled (v mod 2 ^ 32) conn /\
     (forall (arg' : string),
         stoulInt64 arg' = Returns (Value (v + 2 ^ 32)) ->
         supplyFullSync pool stoulInt64 conn arg' =
           supplyFullSync pool stoulInt64 conn storeIdArg) /\
     (forall (svr : SegmentMgr Payload) fsys,
         svr (v mod 2 ^ 32) = None ->
         supplyFullSyncRoutine svr fsys conn (v mod 2 ^ 32) = Some Aborted)) /\
  (isFull pool = false ->
   ((exists s, stoulInt64 storeIdArg = Returns (Failed s)) \/
    (exists v, stoulInt64 storeIdArg = Returns (Value v) /\ v < 0)) ->
   exists conn',
     supplyFullSync pool stoulInt64 conn storeIdArg = Refused conn' /\
     history conn' = history conn ++ [WriteLine "-ERR invalid storeId" 1]).
Proof.
  unfold supplyFullSync, isFullSupplierFull. split; [ | split ].
  - intros ->. eexists. split; reflexivity.
  - intros -> v Hv Hpos. rewrite Hv.
    assert (Hnonneg : (v <? 0) = false) by (apply Z.ltb_ge; lia).
    rewrite Hnonneg. split; [ reflexivity | ]. split.
    + intros arg' Harg. rewrite Harg.
      assert ((v + 2 ^ 32 <? 0) = false) as -> by (apply Z.ltb_ge; lia).
      unfold u32, UINT32_MOD. f_equal.
      rewrite <- (Z.mul_1_l (2 ^ 32)) at 1. now rewrite Z.mod_add.
    + intros svr fsys Hnone. unfold supplyFullSyncRoutine. now rewrite Hnone.
  - intros -> [[s Hs] | (v & Hv & Hneg)].
    + rewrite Hs. eexists. split; reflexivity.
    + rewrite Hv. assert ((v <? 0) = true) as -> by (apply Z.ltb_lt; lia).
      eexists. split; reflexivity.
Qed.

End Admission.

Section Frame.

Context {Payload : Type} `{!ByteString Payload} `{!ReplLogCodec Payload}.
Implicit Types (ss : Wire Payload) (logs : list (ReplLog Payload)).

Lemma wireSize_app ss1 ss2 : wireSize (ss1 ++ ss2) = wireSize ss1 + wireSize ss2.
Proof.
  unfold wireSize. induction ss1 as [ | c ss1 IH ]; simpl; [ reflexivity | ].
  rewrite IH. lia.
Qed.

(** X12. The frame of a batch says how many bulks it holds and holds as
    many: it opens with [*] and twice the number of rows plus two, and after
    the two bulks of the command carries, as the only payloads, the encoded
    key and the encoded value of each row, in the order of the batch; each
    bulk being three pieces, the frame has one piece and three for each bulk
    announced. *)
Theorem frameBinlogs_announces_its_bulks dst logs :
  head (frameBinlogs dst logs) =
    Some (Text ("*" +:+ pretty (Z.of_nat (length logs) * 2 + 2) +:+ CRLF)) /\
  rawChunks (frameBinlogs dst logs) = flat_map encodedPair logs /\
  Z.of_nat (length (frameBinlogs dst logs)) =
    1 + 3 * (Z.of_nat (length logs) * 2 + 2).
Proof.
  unfold frameBinlogs. cbn zeta.
  set (ss := fmtBulk (fmtBulk (fmtMultiBulkLen [] _) _) _).
  destruct (frame_rows logs ss) as (Hraw & Hlen & Hhead). cbn zeta in *.
  split; [ | split ].
  - rewrite Hhead. reflexivity.
  - apply frameBinlogs_raw.
  - rewrite Hlen. subst ss. unfold fmtBulk, fmtMultiBulkLen.
    rewrite !length_app. simpl. lia.
Qed.



End Frame.

Section Thresholds.

Context {Payload : Type} `{!ByteString Payload} `{!ReplLogCodec Payload}.
Implicit Types (st : BatchState Payload) (r : ReplLog Payload)
  (pre post batch : list (ReplLog Payload)).

Lemma sizeSum_snoc pre r : sizeSum (pre ++ [r]) = sizeSum pre + opSizeOf r.
Proof.
  unfold sizeSum. induction pre as [ | r' pre IH ]; simpl; [ lia | ].
  rewrite IH. lia.
Qed.

Lemma countersTrack_push st r nowId' :
  countersTrack st ->
  countersTrack (mkBatchState (binlogs st ++ [r]) (u32 (cnt st + 1)) nowId'
                   (u64 (estimateSize st + opSizeOf r))).
Proof.
  intros [Hcnt Hsize]. split; simpl.
  - rewrite Hcnt, length_app. simpl. unfold u32.
    rewrite Zplus_mod_idemp_l. f_equal. lia.
  - rewrite Hsize, sizeSum_snoc. unfold u64. now rewrite Zplus_mod_idemp_l.
Qed.

Lemma batchLoop_thresholds cursor : forall st st' rest,
  tracksLast st ->
  countersTrack st ->
  batchLoop cursor st = Break st' rest ->
  forall pre r post,
    binlogs st' = pre ++ r :: post ->
    (length (binlogs st) <= length pre)%nat ->
    boundary pre r ->
    u32 (Z.of_nat (length pre) + 1) < suggestBatch /\
    u64 (sizeSum (pre ++ [r])) < suggestBytes.
Proof.
  induction cursor as [ | [explog | s] cursor IH ];
    intros st st' rest Hlast Htrack H pre r post Hsplit Hlen Hb; simpl in H.
  - injection H as <- <-. rewrite Hsplit, length_app in Hlen. simpl in Hlen. lia.
  - assert (Hhere : length pre = length (binlogs st) ->
                    forall st1, batchLoop cursor st1 = Break st' rest ->
                    tracksLast st1 ->
                    binlogs st1 = binlogs st ++ [explog] ->
                    pre = binlogs st /\ r = explog).
    { intros Heq st1 Hloop Hst1 Hbin.
      apply batchLoop_Break in Hloop as (taken & Htaken & _); [ | exact Hst1 ].
      rewrite Hbin, <- app_assoc, Hsplit in Htaken. simpl in Htaken.
      apply app_inj_1 in Htaken as [-> [= -> _]]; [ now split | exact Heq ]. }
    destruct (startsTxn st explog) eqn:Hstart.
    + destruct (overThreshold _ _) eqn:Hover.
      * injection H as <- <-. simpl in Hsplit.
        rewrite Hsplit, length_app in Hlen. simpl in Hlen. lia.
      * assert (Hst1 : tracksLast
                         (mkBatchState (binlogs st ++ [explog]) (u32 (cnt st + 1))
                            (txnIdOf explog)
                            (u64 (estimateSize st + opSizeOf explog)))).
        { unfold tracksLast. simpl. now rewrite lastTxn_snoc. }
        destruct (Nat.eq_dec (length pre) (length (binlogs st))) as [Heq | Hne].
        -- destruct (Hhere Heq _ H Hst1 eq_refl) as [-> ->].
           unfold overThreshold in Hover.
           apply orb_false_iff in Hover as [Hc Hs].
           destruct Htrack as [Hcnt Hsize].
           rewrite Hcnt in Hc. rewrite Hsize in Hs.
           unfold u32 in Hc. rewrite Zplus_mod_idemp_l in Hc.
           unfold u64 in Hs. rewrite Zplus_mod_idemp_l in Hs.
           rewrite sizeSum_snoc. unfold u32, u64.
           rewrite Z.geb_leb in Hc, Hs. apply Z.leb_gt in Hc, Hs. split; lia.
        -- eapply (IH _ _ _ Hst1 (countersTrack_push _ _ _ Htrack) H); eauto.
           simpl. rewrite length_app. simpl. lia.
    + assert (Hst1 : tracksLast
                       (mkBatchState (binlogs st ++ [explog]) (u32 (cnt st + 1))
                          (nowId st)
                          (u64 (estimateSize st + opSizeOf explog)))).
      { unfold tracksLast. simpl. rewrite lastTxn_snoc.
        now apply startsTxn_false in Hstart. }
      destruct (Nat.eq_dec (length pre) (length (binlogs st))) as [Heq | Hne].
      * destruct (Hhere Heq _ H Hst1 eq_refl) as [-> ->].
        apply startsTxn_false in Hstart as [Hsame Hnz].
        rewrite Hlast in Hsame, Hnz. destruct Hb; congruence.
      * eapply (IH _ _ _ Hst1 (countersTrack_push _ _ _ Htrack) H); eauto.
        simpl. rewrite length_app. simpl. lia.
  - destruct (ErrorCodes_eqb (code s) ERR_EXHAUST); [ | discriminate ].
    injection H as <- <-. rewrite Hsplit, length_app in Hlen. simpl in Hlen. lia.
Qed.

(** X14. The two thresholds bind at every place of a batch where a
    transaction starts: if the row [r] of a gathered batch starts a
    transaction, the number of rows up to and including [r] is below
    [suggestBatch] and their sizes together are below [suggestBytes] (in the
    widths of the two counters). Only the rows that continue a transaction
    can carry a batch beyond the thresholds; so a batch in which every row
    starts a transaction has at most 63 rows. *)
Theorem thresholds_bind_where_transactions_start
    (svr : SegmentMgr Payload) sid pos batch :
  gatherBinlogs svr sid pos = Done (Value batch) ->
  (forall pre r post,
      batch = pre ++ r :: post ->
      boundary pre r ->
      u32 (Z.of_nat (length pre) + 1) < suggestBatch /\
      u64 (sizeSum (pre ++ [r])) < suggestBytes) /\
  ((forall pre r post, batch = pre ++ r :: post -> boundary pre r) ->
   (length batch <= 63)%nat).
Proof.
  intros H.
  assert (Hall : forall pre r post,
             batch = pre ++ r :: post ->
             boundary pre r ->
             u32 (Z.of_nat (length pre) + 1) < suggestBatch /\
             u64 (sizeSum (pre ++ [r])) < suggestBytes).
  { unfold gatherBinlogs in H.
    destruct (svr sid) as [store | ]; [ | discriminate ].
    destruct (createTransaction store) as [txn | s]; [ | discriminate ].
    destruct (batchLoop _ _) as [st rest | s] eqn:Hloop; [ | discriminate ].
    injection H as <-. intros pre r post Hsplit Hb.
    assert (Htrack : countersTrack (@batchInit Payload)) by (split; reflexivity).
    apply (batchLoop_thresholds _ _ _ _ tracksLast_init Htrack Hloop
             pre r post Hsplit); [ simpl; lia | exact Hb ]. }
  split; [ exact Hall | ].
  intros Hevery.
  destruct (le_lt_dec (length batch) 63) as [ | Hlong ]; [ assumption | exfalso ].
  pose proof (firstn_skipn 63 batch) as Hsplit.
  destruct (skipn 63 batch) as [ | r post ] eqn:Hskip.
  - apply (f_equal (@length _)) in Hskip. rewrite length_skipn in Hskip.
    simpl in Hskip. lia.
  - symmetry in Hsplit.
    destruct (Hall _ _ _ Hsplit (Hevery _ _ _ Hsplit)) as [Hc _].
    rewrite length_firstn, Nat.min_l in Hc by lia.
    vm_compute in Hc. discriminate.
Qed.

End Thresholds.

Section Invariants.

Context {Payload : Type} `{!ByteString Payload} `{!ReplLogCodec Payload}.
Implicit Types (svr : SegmentMgr Payload) (mgr : ReplManager Payload)
  (conn : BlockingTcpClient Payload).

Lemma masterSendBinlog_Aborted svr conn sid dst pos :
  masterSendBinlog svr conn sid dst pos = Aborted <-> svr sid = None.
Proof.
  unfold masterSendBinlog, gatherBinlogs. split.
  - destruct (svr sid) as [store | ]; [ | reflexivity ].
    destruct (createTransaction store) as [txn | s]; [ | discriminate ].
    destruct (batchLoop _ _); discriminate.
  - now intros ->.
Qed.

(** X15. The push routine runs into an [INVARIANT] in two cases only, both
    with the entry present: the store of the entry does not exist, or the
    batch went out and was acknowledged for an entry that was not marked as
    running. A run for an absent entry, and a run whose exchange with the
    slave fails, never do: the failed entry is erased before the guard looks
    for it, running or not. *)
Theorem masterPushRoutine_aborts_iff svr now0 now1 mgr sid cid :
  masterPushRoutine svr now0 now1 mgr sid cid = Aborted <->
  exists e,
    pushStatus mgr sid !! cid = Some e /\
    (svr sid = None \/
     (isRunning e = false /\
      exists newPos conn',
        masterSendBinlog svr (client e) sid (dstStoreId e) (binlogPos e) =
          Done (Value newPos, conn'))).
Proof.
  unfold masterPushRoutine.
  destruct (pushStatus mgr sid !! cid) as [e | ] eqn:He.
  - destruct (masterSendBinlog svr (client e) sid (dstStoreId e) (binlogPos e))
      as [ [[newPos | s] conn'] | ] eqn:Hsend.
    + unfold pushGuard.
      rewrite lookup_setPushStatus, decide_True, lookup_insert_eq by reflexivity.
      simpl. split.
      * destruct (isRunning e) eqn:Hrun; [ discriminate | ]. intros _.
        exists e. split; [ reflexivity | ]. right. split; [ exact Hrun | ].
        now exists newPos, conn'.
      * intros (e' & [= <-] & [Hnone | (Hrun & _)]).
        -- apply (masterSendBinlog_Aborted svr (client e) sid (dstStoreId e)
                    (binlogPos e)) in Hnone. congruence.
        -- now rewrite Hrun.
    + unfold pushGuard.
      rewrite lookup_setPushStatus, decide_True, lookup_delete_eq by reflexivity.
      split; [ discriminate | ].
      intros (e' & [= <-] & [Hnone | (_ & newPos & c & Hs)]).
      * apply (masterSendBinlog_Aborted svr (client e) sid (dstStoreId e)
                 (binlogPos e)) in Hnone. congruence.
      * congruence.
    + split; [ intros _ | reflexivity ].
      exists e. split; [ reflexivity | ]. left.
      now apply masterSendBinlog_Aborted in Hsend.
  - unfold pushGuard. rewrite He. split; [ discriminate | ].
    intros (e & [=] & _).
Qed.

End Invariants.

(** * The further properties at the scenarios *)

Lemma masterSendBinlog_store_failure_writes_nothing_witness :
  masterSendBinlog (fun _ => Some storeNoTxn) okClient 0 0 9 =
    Done (Failed noTxn, okClient) /\
  (history okClient = history okClient <->
   gatherBinlogs (fun _ => Some storeNoTxn) 0 9 = Done (Failed noTxn)) /\
  (gatherBinlogs (fun _ => Some storeNoTxn) 0 9 = Done (Failed noTxn) ->
   okClient = okClient /\
   exists store,
     (fun _ : Z => Some storeNoTxn) 0 = Some store /\
     (createTransaction store = Failed noTxn \/
      exists txn,
        createTransaction store = Value txn /\
        In (Failed noTxn) (createBinlogCursor txn (u64 (9 + 1))) /\
        code noTxn <> ERR_EXHAUST)).
Proof.
  split; [ reflexivity | ].
  exact (masterSendBinlog_store_failure_writes_nothing
           (fun _ => Some storeNoTxn) okClient 0 0 9 noTxn okClient eq_refl).
Defined.

Lemma masterSendBinlog_connection_discipline_witness :
  masterSendBinlog (oneStore logA) deafClient 0 0 9 =
    Done (Failed (mkStatus ERR_NETWORK "write failed"),
          mkClient "slave" deafPeer [WriteData (frameBinlogs 0 logA) 1]) /\
  exists batch secs,
    gatherBinlogs (oneStore logA) 0 9 = Done (Value batch) /\
    secs = writeTimeoutSecs (wireSize (frameBinlogs 0 batch)) /\
    [WriteData (frameBinlogs 0 logA) 1] =
      [] ++ [WriteData (frameBinlogs 0 batch) secs].
Proof.
  assert (H : masterSendBinlog (oneStore logA) deafClient 0 0 9 =
    Done (Failed (mkStatus ERR_NETWORK "write failed"),
          mkClient "slave" deafPeer [WriteData (frameBinlogs 0 logA) 1]))
    by (vm_compute; reflexivity).
  split; [ exact H | ].
  destruct (masterSendBinlog_connection_discipline _ _ _ _ _ _ _ H)
    as [ (_ & s & _ & Hg)
       | (batch & secs & Hg & Hsecs &
          [ (s & _ & _ & _ & Hh) | (answer & _ & Hh & _) ]) ].
  - vm_compute in Hg. discriminate Hg.
  - exists batch, secs. split; [ exact Hg | ]. split; [ exact Hsecs | exact Hh ].
  - simpl in Hh. discriminate Hh.
Defined.

Lemma masterPushRoutine_releases_entry_witness :
  masterPushRoutine (oneStore logA) 0 1 (registered 0 "9") 0 0 = Done pushedA /\
  (exists e', pushStatus pushedA 0 !! 0 = Some e' /\ isRunning e' = false) /\
  (forall sid' cid',
      (sid', cid') <> (0, 0) ->
      pushStatus pushedA sid' !! cid' =
        pushStatus (registered 0 "9") sid' !! cid') /\
  firstBinlogId pushedA = firstBinlogId (registered 0 "9") /\
  clientIdGen pushedA = clientIdGen (registered 0 "9").
Proof.
  assert (H : masterPushRoutine (oneStore logA) 0 1 (registered 0 "9") 0 0 =
              Done pushedA) by (vm_compute; reflexivity).
  split; [ exact H | ].
  destruct (masterPushRoutine_releases_entry _ _ _ _ _ _ _ H)
    as (Hentry & Hothers & Hfirst & Hgen).
  split; [ | split; [ exact Hothers | split; [ exact Hfirst | exact Hgen ] ] ].
  destruct (pushStatus pushedA 0 !! 0) as [ e' | ] eqn:He.
  - exists e'. split; [ reflexivity | exact (proj1 Hentry) ].
  - vm_compute in He. discriminate He.
Defined.

Lemma masterPushRoutine_failure_erases_witness :
  pushStatus (registered 0 "9") 0 !! 0 = Some (entryOf 9) /\
  masterSendBinlog (fun _ => Some storeNoTxn) (client (entryOf 9)) 0
      (dstStoreId (entryOf 9)) (binlogPos (entryOf 9)) =
    Done (Failed noTxn, client (entryOf 9)) /\
  exists mgr',
    masterPushRoutine (fun _ => Some storeNoTxn) 0 1 (registered 0 "9") 0 0 =
      Done mgr' /\
    pushStatus mgr' 0 !! 0 = None /\
    forall svr2 t0 t1, masterPushRoutine svr2 t0 t1 mgr' 0 0 = Done mgr'.
Proof.
  assert (He : pushStatus (registered 0 "9") 0 !! 0 = Some (entryOf 9))
    by (vm_compute; reflexivity).
  split; [ exact He | ]. split; [ reflexivity | ].
  exact (masterPushRoutine_failure_erases (fun _ => Some storeNoTxn) 0 1
           (registered 0 "9") 0 0 (entryOf 9) noTxn (client (entryOf 9))
           He eq_refl).
Defined.

(** A replica that is up to date is asked again a second later. *)
Lemma masterPushRoutine_backs_off_when_idle_witness :
  cursorsHonourStart (oneStore logA) /\
  pushStatus (registered 0 "11") 0 !! 0 = Some (entryOf 11) /\
  gatherBinlogs (oneStore logA) 0 11 = Done (Value []) /\
  exists mgr' e',
    masterPushRoutine (oneStore logA) 0 1 (registered 0 "11") 0 0 = Done mgr' /\
    pushStatus mgr' 0 !! 0 = Some e' /\
    isRunning e' = false /\
    binlogPos e' = 11 /\
    nextSchedTime e' = 1 + seconds 1.
Proof.
  assert (Hsvr : cursorsHonourStart (oneStore logA)).
  { apply oneStore_honours. repeat constructor. }
  assert (He : pushStatus (registered 0 "11") 0 !! 0 = Some (entryOf 11))
    by (vm_compute; reflexivity).
  assert (Hg : gatherBinlogs (oneStore logA) 0 (binlogPos (entryOf 11)) =
               Done (Value [])) by (vm_compute; reflexivity).
  split; [ exact Hsvr | ]. split; [ exact He | ]. split; [ exact Hg | ].
  destruct (masterPushRoutine_backs_off_when_idle (oneStore logA) 0 1
              (registered 0 "11") 0 0 (entryOf 11) [] 11
              (mkClient "slave" slavePeer
                 [WriteLine "+OK" 1; ReadLine 1 (Value "+PONG");
                  WriteData (frameBinlogs 0 []) 1; ReadLine 1 (Value "+OK")])
              Hsvr He eq_refl)
    as (mgr' & e' & Hrun & Hlook & Hidle & Hpos & _ & Hnext).
  - vm_compute. split; [ discriminate | reflexivity ].
  - exact Hg.
  - vm_compute. reflexivity.
  - exists mgr', e'. repeat split; assumption.
Defined.

Lemma registrations_do_not_collide_witness :
  0 <= clientIdGen (emptyMgr 0) < UINT64_MOD /\
  registrationConditions stoulDec 10 (emptyMgr 0) (emptyMgr 0) slaveClient
    "0" "0" "9" 0 0 9 /\
  registrationConditions stoulDec 10
    (fst (registerIncrSync stoulDec 10 0 (emptyMgr 0) (emptyMgr 0) slaveClient
            "0" "0" "9"))
    (fst (registerIncrSync stoulDec 10 0 (emptyMgr 0) (emptyMgr 0) slaveClient
            "0" "0" "9"))
    slaveClient "1" "2" "5" 1 2 5 /\
  exists mgr2,
    mgr2 = fst (registerIncrSync stoulDec 10 3
                  (fst (registerIncrSync stoulDec 10 0 (emptyMgr 0) (emptyMgr 0)
                          slaveClient "0" "0" "9"))
                  (fst (registerIncrSync stoulDec 10 0 (emptyMgr 0) (emptyMgr 0)
                          slaveClient "0" "0" "9"))
                  slaveClient "1" "2" "5") /\
    posAt mgr2 0 0 = Some 9 /\
    posAt mgr2 1 1 = Some 5.
Proof.
  assert (Hgen : 0 <= clientIdGen (emptyMgr 0) < UINT64_MOD)
    by (vm_compute; split; [ discriminate | reflexivity ]).
  assert (H1 : registrationConditions stoulDec 10 (emptyMgr 0) (emptyMgr 0)
                 slaveClient "0" "0" "9" 0 0 9).
  { split; [ exists 0, 0, 9; repeat split | repeat split ];
      try reflexivity; vm_compute; discriminate. }
  assert (H2 : registrationConditions stoulDec 10
                 (fst (registerIncrSync stoulDec 10 0 (emptyMgr 0) (emptyMgr 0)
                         slaveClient "0" "0" "9"))
                 (fst (registerIncrSync stoulDec 10 0 (emptyMgr 0) (emptyMgr 0)
                         slaveClient "0" "0" "9"))
                 slaveClient "1" "2" "5" 1 2 5).
  { split; [ exists 1, 2, 5; repeat split | repeat split ];
      try reflexivity; vm_compute; discriminate. }
  split; [ exact Hgen | ]. split; [ exact H1 | ]. split; [ exact H2 | ].
  destruct (registrations_do_not_collide stoulDec 10 0 3 (emptyMgr 0)
              slaveClient slaveClient "0" "0" "9" "1" "2" "5"
              0 0 9 1 2 5 Hgen H1 H2)
    as (mgr2 & Hmgr & _ & Hpos1 & Hpos2 & _).
  exists mgr2. split; [ exact Hmgr | ]. split; [ exact Hpos1 | exact Hpos2 ].
Defined.

Lemma full_sync_of_stopped_store_witness :
  (fun _ : Z => Some storeStopped) 0 = Some storeStopped /\
  Store_isRunning storeStopped = false /\
  exists w,
    supplyFullSyncRoutine (fun _ => Some storeStopped) fsysE okClient 0 =
      Some (Done w) /\
    syncTrace w = [ActNet (WriteLine "-ERR store is not running" 1)] /\
    history (syncClient w) =
      history okClient ++ [WriteLine "-ERR store is not running" 1].
Proof.
  split; [ reflexivity | ]. split; [ reflexivity | ].
  exact (full_sync_of_stopped_store (fun _ => Some storeStopped) fsysE okClient
           0 storeStopped eq_refl eq_refl).
Defined.

(** A file of 50 000 000 bytes goes out as two reads of 20 MiB and one of
    the rest. *)
Lemma streamFile_tiles_the_file_witness :
  0 <= 50000000 < UINT64_MOD /\
  exists w',
    streamFile (streamFuel 50000000) fsysE "bk/big" 0 50000000
      (mkSyncState okClient []) = Some (Continue, w') /\
    exists tr,
      syncTrace w' = [] ++ tr /\
      tiles "bk/big" 0 50000000 (readsOf tr) /\
      linesWritten tr = [] /\
      totalRead tr = 50000000.
Proof.
  assert (Hsize : 0 <= 50000000 < UINT64_MOD)
    by (vm_compute; split; [ discriminate | reflexivity ]).
  split; [ exact Hsize | ].
  eexists. split; [ vm_compute; reflexivity | ].
  destruct (streamFile_tiles_the_file (streamFuel 50000000) fsysE "bk/big"
              0 50000000 (mkSyncState okClient []) _ Hsize
              ltac:(vm_compute; reflexivity))
    as (tr & Htr & Htiles & _ & Hlines & Htotal).
  exists tr. split; [ exact Htr | ]. split; [ exact Htiles | ].
  split; [ exact Hlines | exact Htotal ].
Defined.

Lemma full_sync_reads_only_after_streaming_witness :
  In (ActNet (ReadLine 1 (Value "+OK")))
     (match supplyFullSyncRoutine (fun _ => Some storeE) fsysE okClient 0 with
      | Some (Done w) => syncTrace w
      | _ => []
      end) /\
  exists w tr,
    supplyFullSyncRoutine (fun _ => Some storeE) fsysE okClient 0 =
      Some (Done w) /\
    syncTrace w =
      ActBackup
        :: ActNet (WriteLine (manifestJson (getFileList backupE)) 1)
        :: tr ++ [ActNet (ReadLine 1 (Value "+OK")); ActReleaseBackup] /\
    Forall fileAction tr /\
    linesWritten tr = ["000001.sst"; "MANIFEST"] /\
    totalRead tr = 4096 + 12.
Proof.
  destruct (supplyFullSyncRoutine (fun _ => Some storeE) fsysE okClient 0)
    as [ [ w | ] | ] eqn:Hrun;
    [ | vm_compute in Hrun; discriminate Hrun
      | vm_compute in Hrun; discriminate Hrun ].
  assert (Hin : In (ActNet (ReadLine 1 (Value "+OK"))) (syncTrace w)).
  { vm_compute in Hrun. injection Hrun as <-. vm_compute. tauto. }
  split; [ exact Hin | ].
  destruct (full_sync_reads_only_after_streaming (fun _ => Some storeE) fsysE
              okClient 0 storeE backupE w 1 (Value "+OK")
              eq_refl eq_refl eq_refl Hrun Hin)
    as (tr & Htr & _ & Hfile & Hlines & Htotal).
  exists w, tr. split; [ reflexivity | ]. split; [ exact Htr | ].
  split; [ exact Hfile | ]. split; [ exact Hlines | exact Htotal ].
Defined.


(** Scenario C: every row is a transaction, and the batch has 63 rows. *)
Lemma thresholds_bind_where_transactions_start_witness :
  gatherBinlogs (oneStore logC) 0 0 = Done (Value (firstn 63 logC)) /\
  (forall pre r post,
      firstn 63 logC = pre ++ r :: post ->
      boundary pre r ->
      u32 (Z.of_nat (length pre) + 1) < suggestBatch /\
      u64 (sizeSum (pre ++ [r])) < suggestBytes).
Proof.
  assert (H : gatherBinlogs (oneStore logC) 0 0 = Done (Value (firstn 63 logC)))
    by (vm_compute; reflexivity).
  split; [ exact H | ].
  exact (proj1 (thresholds_bind_where_transactions_start _ _ _ _ H)).
Defined.
